(** * Segregation-of-Duties analysis of app.py: a shallow embedding

    The development follows the analysis functions of [app.py]:
    [load_rule_book], [process_rule_book], [process_user_access],
    [analyze_violations] and the [try] block of [main].

    Modelling choices.
    - Python [str] values are [string]s.  The model covers ASCII text: on
      that range [str.strip] removes the characters for which
      [str.isspace] holds (0x09-0x0D, 0x1C-0x20) and [str.upper] maps
      [a-z] to [A-Z].  Outside it Python also strips the Unicode blanks
      and maps other letters, so a statement that reads the text of a cell
      or of a header name assumes that text to be ASCII ([ascii_cell],
      [ascii_header]).
    - A [dict] is an association list in insertion order (the order in
      which Python iterates it); a [set] of codes is a duplicate-free
      list, and the order in which a set is iterated is a parameter of the
      analysis ([set_order]), since it depends on string hashes.
    - A pandas cell is either text or the float NaN of an empty cell;
      [row[col]] on a column that the frame does not have raises
      [KeyError], modelled by the [result] type.  [row[col]] is a cell
      only when the name [col] occurs once in the header, and
      [df.columns.str] exists only for a header that is not empty: a
      statement that depends on either assumes it ([NoDup] of the header,
      [ascii_header]). *)

From Stdlib Require Import List String Ascii Bool Arith Lia Permutation.
From Stdlib Require Import DecimalString DecimalNat.
Import ListNotations.
Open Scope string_scope.
Open Scope list_scope.

(* ================================================================== *)
(** ** Python strings *)

Module PyStr.

(** [str.isspace] on one ASCII character. *)
Definition isspace (c : ascii) : bool :=
  let n := nat_of_ascii c in
  (((9 <=? n) && (n <=? 13)) || ((28 <=? n) && (n <=? 32)))%nat.

(** [str.upper] on one ASCII character. *)
Definition upper_char (c : ascii) : ascii :=
  let n := nat_of_ascii c in
  if ((97 <=? n) && (n <=? 122))%nat then ascii_of_nat (n - 32) else c.

Fixpoint upper (s : string) : string :=
  match s with
  | EmptyString => EmptyString
  | String c s' => String (upper_char c) (upper s')
  end.

Fixpoint lstrip (s : string) : string :=
  match s with
  | EmptyString => EmptyString
  | String c s' => if isspace c then lstrip s' else s
  end.

(** [rstrip] keeps a character when it is not a space or when something
    remains to its right after stripping. *)
Fixpoint rstrip (s : string) : string :=
  match s with
  | EmptyString => EmptyString
  | String c s' =>
      match rstrip s' with
      | EmptyString => if isspace c then EmptyString else String c EmptyString
      | r => String c r
      end
  end.

Definition strip (s : string) : string := rstrip (lstrip s).

(** Truth value of a string in a condition: non-empty. *)
Definition truthy (s : string) : bool :=
  match s with EmptyString => false | _ => true end.

(** [a < b] on strings: lexicographic on code points. *)
Definition lt (a b : string) : Prop := String.compare a b = Lt.

End PyStr.


(* ================================================================== *)
(** ** Python containers *)

(** A [dict] in insertion order.  [get] is [d.get(k)], [mem] is [k in d],
    [set_item] is [d[k] = v] and [update] is the [defaultdict] idiom
    [d[k]] followed by a mutation [f] of the value found or created. *)
Module PyDict.
Section Dict.
Context {K V : Type}.
Variable eq_dec : forall x y : K, {x = y} + {x <> y}.

Fixpoint get (k : K) (d : list (K * V)) : option V :=
  match d with
  | [] => None
  | (k', v) :: t => if eq_dec k k' then Some v else get k t
  end.

Definition mem (k : K) (d : list (K * V)) : bool :=
  match get k d with Some _ => true | None => false end.

Fixpoint set_item (k : K) (v : V) (d : list (K * V)) : list (K * V) :=
  match d with
  | [] => [(k, v)]
  | (k', v') :: t =>
      if eq_dec k k' then (k', v) :: t else (k', v') :: set_item k v t
  end.

Fixpoint update (k : K) (f : V -> V) (dflt : V) (d : list (K * V))
  : list (K * V) :=
  match d with
  | [] => [(k, f dflt)]
  | (k', v') :: t =>
      if eq_dec k k' then (k', f v') :: t else (k', v') :: update k f dflt t
  end.

Definition keys (d : list (K * V)) : list K := map fst d.
End Dict.
End PyDict.

(** A [set] of strings: a duplicate-free list; [add] is [s.add(x)]. *)
Module PySet.
Definition t := list string.
Definition empty : t := [].
Definition add (x : string) (s : t) : t :=
  if in_dec string_dec x s then s else s ++ [x].
End PySet.

(** The order in which Python iterates a set is not the insertion order;
    all that is known is that every element comes exactly once. *)
Record set_order : Type := {
  iter :> PySet.t -> list string;
  iter_perm : forall s, Permutation (iter s) s
}.

Definition insertion_order : set_order :=
  {| iter := fun s => s; iter_perm := fun s => Permutation_refl s |}.

Definition reverse_order : set_order :=
  {| iter := fun s => rev s;
     iter_perm := fun s => Permutation_sym (Permutation_rev s) |}.

(** [itertools.combinations(pool, 2)]: the pairs [(pool[i], pool[j])],
    [i < j], in lexicographic order of the indices. *)
Fixpoint combinations2 (pool : list string) : list (string * string) :=
  match pool with
  | [] => []
  | x :: rest => map (pair x) rest ++ combinations2 rest
  end.

(** [tuple(sorted((t1, t2)))]: the sort is stable and compares with [<]. *)
Definition sorted_pair (t1 t2 : string) : string * string :=
  if String.ltb t2 t1 then (t2, t1) else (t1, t2).

Definition pair_dec (p q : string * string) : {p = q} + {p <> q}.
Proof. decide equality; apply string_dec. Defined.

(* ================================================================== *)
(** ** Tables and exceptions *)

(** A cell of a frame read by [pd.read_excel]: text, or NaN where the
    sheet has no value. *)
Inductive cell : Type :=
| NaN
| Text (s : string).

(** [str(cell)] *)
Definition str (c : cell) : string :=
  match c with
  | NaN => "nan"
  | Text s => s
  end.

(** A frame: its header and its rows.  A row shorter than the header is
    padded with NaN, as the reader does.  A name may occur twice in a
    header; [row[col]] is then not a cell, and statements that read cells
    by name assume a header without repeated names. *)
Record DataFrame : Type := {
  columns : list string;
  rows : list (list cell)
}.

(** Outcome of code that may raise [KeyError]. *)
Inductive result (A : Type) : Type :=
| Ok (a : A)
| KeyError (key : string).
Arguments Ok {A} a.
Arguments KeyError {A} key.

Definition bind {A B} (r : result A) (k : A -> result B) : result B :=
  match r with
  | Ok a => k a
  | KeyError key => KeyError key
  end.

Notation "x <- r ;; k" := (bind r (fun x => k))
  (at level 61, r at next level, right associativity).

(** A [for] loop whose body may raise. *)
Fixpoint for_each {S R} (body : S -> R -> result S) (l : list R) (s : S)
  : result S :=
  match l with
  | [] => Ok s
  | r :: l' => s' <- body s r ;; for_each body l' s'
  end.

Fixpoint index_of (col : string) (cols : list string) : option nat :=
  match cols with
  | [] => None
  | c :: cols' =>
      if string_dec col c then Some 0
      else match index_of col cols' with
           | Some i => Some (S i)
           | None => None
           end
  end.

(** [row[col]] for a row yielded by [df.iterrows()]. *)
Definition row_get (cols : list string) (row : list cell) (col : string)
  : result cell :=
  match index_of col cols with
  | Some i => Ok (nth i row NaN)
  | None => KeyError col
  end.

(** [df.columns.str.strip().str.upper()] *)
Definition normalize_columns (cols : list string) : list string :=
  map (fun c => PyStr.upper (PyStr.strip c)) cols.

(* ================================================================== *)
(** ** The analysis functions *)

(** [conflict_risk_map]: sorted pair of codes -> risk label. *)
Definition conflict_risk_map : Type := list ((string * string) * string).

(** [role_to_tcodes] and the inner dictionaries of [user_role_tcodes]. *)
Definition role_tcodes : Type := list (string * PySet.t).

Definition user_role_tcodes : Type := list (string * role_tcodes).

(** [load_rule_book] after [pd.read_excel]: the header is normalised. *)
Definition load_rule_book (file : DataFrame) : DataFrame :=
  {| columns := normalize_columns (columns file); rows := rows file |}.

(** Body of the loop of [process_rule_book]. *)
Definition rule_row (cols : list string) (m : conflict_risk_map)
    (row : list cell) : result conflict_risk_map :=
  c1 <- row_get cols row "TCODE1" ;;
  let t1 := PyStr.upper (PyStr.strip (str c1)) in
  c2 <- row_get cols row "TCODE2" ;;
  let t2 := PyStr.upper (PyStr.strip (str c2)) in
  c3 <- row_get cols row "ASK_RISK" ;;
  let risk := PyStr.strip (str c3) in
  if PyStr.truthy t1 && PyStr.truthy t2
     && negb (t1 =? "NAN")%string && negb (t2 =? "NAN")%string
     && negb (t1 =? t2)%string
  then
    let pair := sorted_pair t1 t2 in
    if PyDict.mem pair_dec pair m then Ok m
    else Ok (PyDict.set_item pair_dec pair risk m)
  else Ok m.

Definition process_rule_book (rule_df : DataFrame) : result conflict_risk_map :=
  for_each (rule_row (columns rule_df)) (rows rule_df) [].

(** [d[role].add(tcode)] on a [defaultdict(set)]. *)
Definition grant (role tcode : string) (d : role_tcodes) : role_tcodes :=
  PyDict.update string_dec role (PySet.add tcode) PySet.empty d.

(** Body of the loop of [process_user_access]. *)
Definition access_row (cols : list string)
    (g : user_role_tcodes * role_tcodes) (row : list cell)
  : result (user_role_tcodes * role_tcodes) :=
  c1 <- row_get cols row "USER NAME" ;;
  let user := PyStr.strip (str c1) in
  c2 <- row_get cols row "ROLE" ;;
  let role := PyStr.strip (str c2) in
  c3 <- row_get cols row "AUTHORIZATION VALUE" ;;
  let tcode := PyStr.upper (PyStr.strip (str c3)) in
  if PyStr.truthy user && PyStr.truthy role && PyStr.truthy tcode
     && negb (tcode =? "NAN")%string
  then
    Ok (PyDict.update string_dec user (grant role tcode) [] (fst g),
        grant role tcode (snd g))
  else Ok g.

Definition process_user_access (user_df : DataFrame)
  : result (user_role_tcodes * role_tcodes) :=
  let cols := normalize_columns (columns user_df) in
  for_each (access_row cols) (rows user_df) ([], []).

(** The dictionaries appended to [user_violations] and [role_violations]. *)
Record user_violation : Type := {
  USER_NAME : string;
  ROLE : string;
  TCODE_1 : string;
  TCODE_2 : string;
  RISK_FACTOR : string
}.

Record role_violation : Type := {
  r_ROLE : string;
  r_TCODE_1 : string;
  r_TCODE_2 : string;
  r_RISK_FACTOR : string
}.

(** [pair = tuple(sorted((t1, t2)))] looked up in [conflict_risk_map]. *)
Definition severity_of (m : conflict_risk_map) (t1 t2 : string)
  : option string :=
  PyDict.get pair_dec (sorted_pair t1 t2) m.

(** The innermost loop of the user-level pass, for one user and role. *)
Definition user_role_pass (o : set_order) (m : conflict_risk_map)
    (user role : string) (tcodes : PySet.t) : list user_violation :=
  flat_map
    (fun '(t1, t2) =>
       let pair := sorted_pair t1 t2 in
       match PyDict.get pair_dec pair m with
       | Some risk =>
           [{| USER_NAME := user; ROLE := role;
               TCODE_1 := fst pair; TCODE_2 := snd pair;
               RISK_FACTOR := risk |}]
       | None => []
       end)
    (combinations2 (o tcodes)).

(** The inner loop of the role-level pass, for one role. *)
Definition role_pass (o : set_order) (m : conflict_risk_map)
    (role : string) (tcodes : PySet.t) : list role_violation :=
  flat_map
    (fun '(t1, t2) =>
       let pair := sorted_pair t1 t2 in
       match PyDict.get pair_dec pair m with
       | Some risk =>
           [{| r_ROLE := role;
               r_TCODE_1 := fst pair; r_TCODE_2 := snd pair;
               r_RISK_FACTOR := risk |}]
       | None => []
       end)
    (combinations2 (o tcodes)).

Definition analyze_violations (o : set_order)
    (urt : user_role_tcodes) (rtt : role_tcodes) (m : conflict_risk_map)
  : list user_violation * list role_violation :=
  (flat_map
     (fun '(user, roles_dict) =>
        flat_map (fun '(role, tcodes) => user_role_pass o m user role tcodes)
                 roles_dict)
     urt,
   flat_map (fun '(role, tcodes) => role_pass o m role tcodes) rtt).

(** What the [try] block of [main] stores in the session state. *)
Record session : Type := {
  conflict_pairs : nat;
  total_users : nat;
  total_roles : nat;
  user_violations : list user_violation;
  role_violations : list role_violation
}.

(** The [try] block of [main]: [rule_file] and [user_file] are the frames
    that [pd.read_excel] returns for the two uploads. *)
Definition run_analysis (o : set_order) (rule_file user_file : DataFrame)
  : result session :=
  let rule_df := load_rule_book rule_file in
  m <- process_rule_book rule_df ;;
  g <- process_user_access user_file ;;
  let v := analyze_violations o (fst g) (snd g) m in
  Ok {| conflict_pairs := List.length m;
        total_users := List.length (fst g);
        total_roles := List.length (snd g);
        user_violations := fst v;
        role_violations := snd v |}.

(** What the user sees after pressing the button: the stored results, or
    the text passed to [st.error] by the [except] branch.  [str] of a
    [KeyError] is the [repr] of the missing key. *)
Inductive outcome : Type :=
| Analyzed (s : session)
| ErrorShown (message : string).

Definition error_message (key : string) : string :=
  ("❌ Error during analysis: " ++ ("'" ++ key ++ "'"))%string.

Definition main (o : set_order) (rule_file user_file : DataFrame) : outcome :=
  match run_analysis o rule_file user_file with
  | Ok s => Analyzed s
  | KeyError key => ErrorShown (error_message key)
  end.

(** Frames with exactly the required columns, for stating examples. *)
Definition rule_table (l : list (cell * cell * cell)) : DataFrame :=
  {| columns := ["TCODE1"; "TCODE2"; "ASK_RISK"];
     rows := map (fun '(a, b, c) => [a; b; c]) l |}.

Definition access_table (l : list (cell * cell * cell)) : DataFrame :=
  {| columns := ["USER NAME"; "ROLE"; "AUTHORIZATION VALUE"];
     rows := map (fun '(a, b, c) => [a; b; c]) l |}.

(* ================================================================== *)
(** ** The results page *)

(** Commas between groups of three digits, on the digits in reverse. *)
Fixpoint group3 (digits_rev : list ascii) : list ascii :=
  match digits_rev with
  | a :: b :: c :: ((_ :: _) as rest) =>
      a :: b :: c :: ","%char :: group3 rest
  | _ => digits_rev
  end.

(** The format [f"{n:,}"] of a count. *)
Definition format_thousands (n : nat) : string :=
  string_of_list_ascii
    (rev (group3 (rev (list_ascii_of_string
                         (NilEmpty.string_of_uint (Nat.to_uint n)))))).

(** [column.value_counts().get(label, 0)] on a column of strings. *)
Definition value_counts_get (column : list string) (label : string) : nat :=
  count_occ string_dec column label.

(** The three [st.metric] values of the risk summary of a tab. *)
Record risk_summary : Type := {
  high_risk : string;
  medium_risk : string;
  low_risk : string
}.

Definition summarize (risk_column : list string) : risk_summary :=
  {| high_risk := format_thousands (value_counts_get risk_column "High");
     medium_risk := format_thousands (value_counts_get risk_column "Medium");
     low_risk := format_thousands (value_counts_get risk_column "Low") |}.

(** A tab of the results: the success note when the list of violations
    is empty, else the risk summary and the table of the records. *)
Inductive tab (A : Type) : Type :=
| NoViolationsFound
| ViolationsFound (summary : risk_summary) (table : list A).
Arguments NoViolationsFound {A}.
Arguments ViolationsFound {A} summary table.

Definition user_level_tab (s : session) : tab user_violation :=
  if (0 <? List.length (user_violations s))%nat
  then ViolationsFound (summarize (map RISK_FACTOR (user_violations s)))
                       (user_violations s)
  else NoViolationsFound.

Definition role_level_tab (s : session) : tab role_violation :=
  if (0 <? List.length (role_violations s))%nat
  then ViolationsFound (summarize (map r_RISK_FACTOR (role_violations s)))
                       (role_violations s)
  else NoViolationsFound.

(** The key metrics and the first two tabs of the results. *)
Record results : Type := {
  ground_truth_pairs : string;
  total_users_metric : string;
  total_roles_metric : string;
  total_violations : string;
  tab1 : tab user_violation;
  tab2 : tab role_violation
}.

Definition show_results (s : session) : results :=
  {| ground_truth_pairs := format_thousands (conflict_pairs s);
     total_users_metric := format_thousands (total_users s);
     total_roles_metric := format_thousands (total_roles s);
     total_violations := format_thousands (List.length (user_violations s));
     tab1 := user_level_tab s;
     tab2 := role_level_tab s |}.

(** One run of the script [main].  The widgets give the frames read from
    the two uploads, if any, and whether the button was just pressed; the
    session state holds the results of the last completed analysis, if
    any.  The run returns the new session state and what it shows below
    the sidebar. *)
Record widgets : Type := {
  rule_book_file : option DataFrame;
  user_access_file : option DataFrame;
  analyze_button : bool
}.

Inductive page : Type :=
| AskRuleBook
| AskUserAccess
| Analysis (error : option string) (shown : option results).

Definition main_script (o : set_order) (w : widgets) (state : option session)
  : option session * page :=
  match rule_book_file w with
  | None => (state, AskRuleBook)
  | Some rule_file =>
      match user_access_file w with
      | None => (state, AskUserAccess)
      | Some user_file =>
          if analyze_button w then
            match run_analysis o rule_file user_file with
            | Ok s => (Some s, Analysis None (Some (show_results s)))
            | KeyError key =>
                (state, Analysis (Some (error_message key)) None)
            end
          else (state, Analysis None (option_map show_results state))
      end
  end.

(** Reading a formatted count back: the commas are dropped. *)
Definition remove_commas (s : string) : string :=
  string_of_list_ascii
    (filter (fun c => negb (Ascii.eqb c ","%char)) (list_ascii_of_string s)).

(* ================================================================== *)
(** ** Notions used in the statements *)

(** The canonical form of a code cell, and of a risk cell. *)
Definition canon_code (c : cell) : string := PyStr.upper (PyStr.strip (str c)).

Definition canon_risk (c : cell) : string := PyStr.strip (str c).

(** A canonical code that the guards let through. *)
Definition present (t : string) : Prop := t <> "" /\ t <> "NAN".

(** The canonical form of a user or role cell: trimmed, case kept. *)
Definition canon_name (c : cell) : string := PyStr.strip (str c).

(** Every key of the map is a strictly ordered pair of present codes, and
    no key occurs twice. *)
Definition rule_entry_ok (e : (string * string) * string) : Prop :=
  PyStr.lt (fst (fst e)) (snd (fst e)) /\
  present (fst (fst e)) /\ present (snd (fst e)).

Definition rule_map_ok (m : conflict_risk_map) : Prop :=
  NoDup (PyDict.keys m) /\ Forall rule_entry_ok m.

(** Codes granted to a user through a role, and codes of a role. *)
Definition grants (urt : user_role_tcodes) (user role : string) : PySet.t :=
  match PyDict.get string_dec user urt with
  | Some roles_dict =>
      match PyDict.get string_dec role roles_dict with
      | Some tcodes => tcodes
      | None => []
      end
  | None => []
  end.

Definition role_codes (rtt : role_tcodes) (role : string) : PySet.t :=
  match PyDict.get string_dec role rtt with
  | Some tcodes => tcodes
  | None => []
  end.

(** Invariants of the two dictionaries built by [process_user_access]:
    sets have no duplicates and hold only present codes, dictionaries have
    no repeated key, and whatever a user holds through a role is in the
    aggregate of that role. *)
Definition set_ok (s : PySet.t) : Prop :=
  NoDup s /\ Forall present s.

Definition roles_ok (d : role_tcodes) : Prop :=
  NoDup (PyDict.keys d) /\ Forall (fun e => set_ok (snd e)) d.

Definition graph_ok (g : user_role_tcodes * role_tcodes) : Prop :=
  NoDup (PyDict.keys (fst g)) /\
  Forall (fun e => roles_ok (snd e)) (fst g) /\
  roles_ok (snd g) /\
  forall user role, incl (grants (fst g) user role) (role_codes (snd g) role).

(** The conflicts found among the codes of one set: what both passes
    compute before they build their records. *)
Definition matches (o : set_order) (m : conflict_risk_map) (tcodes : PySet.t)
  : list ((string * string) * string) :=
  flat_map
    (fun '(t1, t2) =>
       match PyDict.get pair_dec (sorted_pair t1 t2) m with
       | Some risk => [(sorted_pair t1 t2, risk)]
       | None => []
       end)
    (combinations2 (o tcodes)).

Definition user_record (user role : string) (e : (string * string) * string)
  : user_violation :=
  {| USER_NAME := user; ROLE := role;
     TCODE_1 := fst (fst e); TCODE_2 := snd (fst e); RISK_FACTOR := snd e |}.

Definition role_record (role : string) (e : (string * string) * string)
  : role_violation :=
  {| r_ROLE := role;
     r_TCODE_1 := fst (fst e); r_TCODE_2 := snd (fst e);
     r_RISK_FACTOR := snd e |}.

(** What one row of the access table says: it grants code [t] to user
    [u] through role [r], all three in canonical form and accepted by the
    guard of the loop. *)
Definition access_row_grants (cols : list string) (row : list cell)
    (u r t : string) : Prop :=
  exists c1 c2 c3,
    row_get cols row "USER NAME" = Ok c1 /\
    row_get cols row "ROLE" = Ok c2 /\
    row_get cols row "AUTHORIZATION VALUE" = Ok c3 /\
    canon_name c1 = u /\ canon_name c2 = r /\ canon_code c3 = t /\
    u <> "" /\ r <> "" /\ present t.

(** What one row of the rule book says: the sorted pair [p] of its two
    codes, present and distinct, carries the label [risk]. *)
Definition rule_row_names (cols : list string) (row : list cell)
    (p : string * string) (risk : string) : Prop :=
  exists c1 c2 c3,
    row_get cols row "TCODE1" = Ok c1 /\
    row_get cols row "TCODE2" = Ok c2 /\
    row_get cols row "ASK_RISK" = Ok c3 /\
    present (canon_code c1) /\ present (canon_code c2) /\
    canon_code c1 <> canon_code c2 /\
    p = sorted_pair (canon_code c1) (canon_code c2) /\
    risk = canon_risk c3.

(** [s.isascii()]: every character is below 128. *)
Fixpoint is_ascii (s : string) : bool :=
  match s with
  | EmptyString => true
  | String c s' => (nat_of_ascii c <? 128)%nat && is_ascii s'
  end.

(** A cell whose text, if it has one, is ASCII. *)
Definition ascii_cell (c : cell) : Prop :=
  match c with
  | NaN => True
  | Text s => is_ascii s = true
  end.

(** Rows of ASCII cells. *)
Definition ascii_rows (l : list (list cell)) : Prop :=
  Forall (Forall ascii_cell) l.

(** A header that [df.columns.str.strip().str.upper()] accepts and on
    which it does what [normalize_columns] does: there is at least one
    column, and the names are ASCII text. *)
Definition ascii_header (cols : list string) : Prop :=
  cols <> [] /\ Forall (fun c => is_ascii c = true) cols.

(** The first of the required columns, in the order in which a loop reads
    them, that a header lacks. *)
Definition first_missing (required cols : list string) : option string :=
  find (fun c => if in_dec string_dec c cols then false else true) required.

(** Columns that the two loops read. *)
Definition rule_columns : list string := ["TCODE1"; "TCODE2"; "ASK_RISK"].

Definition access_columns : list string :=
  ["USER NAME"; "ROLE"; "AUTHORIZATION VALUE"].

(* ================================================================== *)
(** ** Lemmas on strings and sorted pairs *)

Example strip_ex : PyStr.strip "  tx 1 	" = "tx 1".
Proof. reflexivity. Qed.

Example upper_ex : PyStr.upper "tx_1z" = "TX_1Z".
Proof. reflexivity. Qed.

Lemma ltb_asym (a b : string) : String.ltb a b = true -> String.ltb b a = false.
Proof.
  unfold String.ltb. rewrite (String.compare_antisym b a).
  destruct (String.compare a b); simpl; congruence.
Qed.

Lemma ltb_total (a b : string) :
  String.ltb a b = false -> String.ltb b a = false -> a = b.
Proof.
  unfold String.ltb. rewrite (String.compare_antisym b a).
  destruct (String.compare a b) eqn:E; simpl; try congruence.
  intros _ _. now apply String.compare_eq_iff.
Qed.

Lemma ltb_irrefl (a : string) : String.ltb a a = false.
Proof.
  destruct (String.ltb a a) eqn:E; [|reflexivity].
  now rewrite (ltb_asym _ _ E) in E.
Qed.

Lemma sorted_pair_comm (a b : string) : sorted_pair a b = sorted_pair b a.
Proof.
  unfold sorted_pair.
  destruct (String.ltb b a) eqn:E1.
  - now rewrite (ltb_asym _ _ E1).
  - destruct (String.ltb a b) eqn:E2; [reflexivity|].
    now rewrite (ltb_total _ _ E2 E1).
Qed.

Lemma sorted_pair_lt (a b : string) :
  a <> b -> PyStr.lt (fst (sorted_pair a b)) (snd (sorted_pair a b)).
Proof.
  intros Hne. unfold sorted_pair, PyStr.lt.
  destruct (String.ltb b a) eqn:E; simpl.
  - unfold String.ltb in E. now destruct (String.compare b a).
  - unfold String.ltb in E. rewrite String.compare_antisym.
    destruct (String.compare b a) eqn:C; simpl; try congruence.
    apply String.compare_eq_iff in C. congruence.
Qed.

Lemma sorted_pair_cases (a b : string) :
  sorted_pair a b = (a, b) \/ sorted_pair a b = (b, a).
Proof. unfold sorted_pair. destruct (String.ltb b a); auto. Qed.

Lemma sorted_pair_neq (a b : string) :
  a <> b -> fst (sorted_pair a b) <> snd (sorted_pair a b).
Proof. intros H. destruct (sorted_pair_cases a b) as [-> | ->]; simpl; congruence. Qed.

Lemma lt_irrefl (a : string) : ~ PyStr.lt a a.
Proof.
  unfold PyStr.lt. intros H.
  assert (E : String.ltb a a = true) by (unfold String.ltb; now rewrite H).
  rewrite ltb_irrefl in E. discriminate.
Qed.

Lemma truthy_true (s : string) : PyStr.truthy s = true <-> s <> "".
Proof. destruct s; simpl; split; congruence. Qed.

(* ================================================================== *)
(** ** Lemmas on loops *)

Section ForEach.
Context {S R : Type}.
Variable body : S -> R -> result S.

Lemma for_each_app (l1 l2 : list R) (s : S) :
  for_each body (l1 ++ l2) s = (s' <- for_each body l1 s ;; for_each body l2 s').
Proof.
  revert s. induction l1 as [|r l1 IH]; intros s; simpl; [reflexivity|].
  destruct (body s r); simpl; auto.
Qed.

(** A row on which the body changes nothing can be removed. *)
Lemma for_each_skip (r : R) (l1 l2 : list R) (s : S) :
  (forall s0, body s0 r = Ok s0) ->
  for_each body (l1 ++ r :: l2) s = for_each body (l1 ++ l2) s.
Proof.
  intros H. rewrite !for_each_app.
  destruct (for_each body l1 s); simpl; [|reflexivity].
  now rewrite H.
Qed.

(** Loop invariants. *)
Lemma for_each_invariant (P : S -> Prop) (l : list R) (s s' : S) :
  (forall s0 r s1, In r l -> P s0 -> body s0 r = Ok s1 -> P s1) ->
  P s -> for_each body l s = Ok s' -> P s'.
Proof.
  revert s. induction l as [|r l IH]; intros s Hstep Hs; simpl.
  - intros [= <-]. exact Hs.
  - destruct (body s r) as [s1|k] eqn:E; simpl; [|discriminate].
    apply IH.
    + intros s0 r0 s2 Hin. apply Hstep. now right.
    + apply (Hstep s r s1); auto. now left.
Qed.

(** A loop whose body never raises returns. *)
Lemma for_each_total (l : list R) (s : S) :
  (forall s0 r, In r l -> exists s1, body s0 r = Ok s1) ->
  exists s', for_each body l s = Ok s'.
Proof.
  revert s. induction l as [|r l IH]; intros s H; simpl.
  - now exists s.
  - destruct (H s r (or_introl eq_refl)) as [s1 ->]. simpl.
    apply IH. intros s0 r0 Hin. apply H. now right.
Qed.
End ForEach.

(* ================================================================== *)
(** ** Lemmas on dictionaries *)

Section DictLemmas.
Context {K V : Type}.
Variable eq_dec : forall x y : K, {x = y} + {x <> y}.
Local Abbreviation get := (PyDict.get eq_dec).
Local Abbreviation update := (PyDict.update eq_dec).
Local Abbreviation set_item := (PyDict.set_item eq_dec).
Local Abbreviation keys := (@PyDict.keys K V).

Lemma get_None (k : K) (d : list (K * V)) :
  get k d = None <-> ~ In k (keys d).
Proof.
  induction d as [|[k' v] d IH]; simpl; [tauto|].
  destruct (eq_dec k k') as [->|Hne].
  - split; [discriminate|]. intros H. exfalso. apply H. now left.
  - rewrite IH. split; intros H; [intros [E|E]; [congruence|tauto]|tauto].
Qed.

Lemma get_In (k : K) (v : V) (d : list (K * V)) :
  get k d = Some v -> In (k, v) d.
Proof.
  induction d as [|[k' v'] d IH]; simpl; [discriminate|].
  destruct (eq_dec k k') as [->|Hne].
  - intros [= ->]. now left.
  - intros H. right. auto.
Qed.

Lemma In_get (k : K) (v : V) (d : list (K * V)) :
  NoDup (keys d) -> In (k, v) d -> get k d = Some v.
Proof.
  induction d as [|[k' v'] d IH]; simpl; [tauto|].
  intros Hnd [E|Hin].
  - injection E as -> ->. destruct (eq_dec k k); congruence.
  - inversion Hnd as [|? ? Hnotin Hnd']; subst.
    destruct (eq_dec k k') as [->|Hne]; [|auto].
    exfalso. apply Hnotin. change k' with (fst (k', v)). now apply in_map.
Qed.

Lemma keys_update (k : K) (f : V -> V) (dflt : V) (d : list (K * V)) :
  keys (update k f dflt d) = if in_dec eq_dec k (keys d) then keys d else keys d ++ [k].
Proof.
  induction d as [|[k' v'] d IH]; simpl; [reflexivity|].
  destruct (eq_dec k k') as [->|Hne]; simpl.
  - destruct (eq_dec k' k'); [reflexivity|congruence].
  - destruct (eq_dec k' k); [congruence|].
    rewrite IH. now destruct (in_dec eq_dec k (keys d)).
Qed.

Lemma NoDup_snoc {A : Type} (x : A) (l : list A) :
  NoDup l -> ~ In x l -> NoDup (l ++ [x]).
Proof.
  intros Hl Hx. apply NoDup_app; [assumption|repeat constructor; auto|].
  intros a Ha [<-|[]]. contradiction.
Qed.

Lemma keys_update_NoDup (k : K) (f : V -> V) (dflt : V) (d : list (K * V)) :
  NoDup (keys d) -> NoDup (keys (update k f dflt d)).
Proof.
  intros H. rewrite keys_update.
  destruct (in_dec eq_dec k (keys d)); [assumption|]. now apply NoDup_snoc.
Qed.

Lemma get_update_same (k : K) (f : V -> V) (dflt : V) (d : list (K * V)) :
  get k (update k f dflt d)
  = Some (f (match get k d with Some v => v | None => dflt end)).
Proof.
  induction d as [|[k' v'] d IH]; simpl.
  - destruct (eq_dec k k); congruence.
  - destruct (eq_dec k k') as [->|Hne]; simpl.
    + destruct (eq_dec k' k'); congruence.
    + destruct (eq_dec k k'); [congruence|assumption].
Qed.

Lemma get_update_other (k k0 : K) (f : V -> V) (dflt : V) (d : list (K * V)) :
  k0 <> k -> get k0 (update k f dflt d) = get k0 d.
Proof.
  intros Hne. induction d as [|[k' v'] d IH]; simpl.
  - destruct (eq_dec k0 k); congruence.
  - destruct (eq_dec k k') as [->|Hne']; simpl.
    + destruct (eq_dec k0 k'); congruence.
    + destruct (eq_dec k0 k'); auto.
Qed.

Lemma update_Forall (P : K * V -> Prop) (k : K) (f : V -> V) (dflt : V)
    (d : list (K * V)) :
  (forall v, P (k, v) -> P (k, f v)) -> P (k, f dflt) ->
  Forall P d -> Forall P (update k f dflt d).
Proof.
  intros Hf Hd. induction d as [|[k' v'] d IH]; simpl; intros H.
  - repeat constructor. exact Hd.
  - inversion H as [|? ? Hhd Htl]; subst.
    destruct (eq_dec k k') as [->|Hne]; constructor; auto.
Qed.

Lemma keys_set_item (k : K) (v : V) (d : list (K * V)) :
  get k d = None -> set_item k v d = d ++ [(k, v)].
Proof.
  induction d as [|[k' v'] d IH]; simpl; [reflexivity|].
  destruct (eq_dec k k'); [discriminate|]. intros H. now rewrite IH.
Qed.

Lemma get_app_l (k : K) (v : V) (d d' : list (K * V)) :
  get k d = Some v -> get k (d ++ d') = Some v.
Proof.
  induction d as [|[k' v'] d IH]; simpl; [discriminate|].
  destruct (eq_dec k k'); auto.
Qed.
End DictLemmas.

(* ================================================================== *)
(** ** The rule book *)

Lemma rule_row_eq (cols : list string) (m : conflict_risk_map)
    (row : list cell) (c1 c2 c3 : cell) :
  row_get cols row "TCODE1" = Ok c1 ->
  row_get cols row "TCODE2" = Ok c2 ->
  row_get cols row "ASK_RISK" = Ok c3 ->
  rule_row cols m row =
    if PyStr.truthy (canon_code c1) && PyStr.truthy (canon_code c2)
       && negb (canon_code c1 =? "NAN")%string
       && negb (canon_code c2 =? "NAN")%string
       && negb (canon_code c1 =? canon_code c2)%string
    then
      if PyDict.mem pair_dec (sorted_pair (canon_code c1) (canon_code c2)) m
      then Ok m
      else Ok (PyDict.set_item pair_dec
                 (sorted_pair (canon_code c1) (canon_code c2)) (canon_risk c3) m)
    else Ok m.
Proof. intros H1 H2 H3. unfold rule_row. rewrite H1, H2, H3. reflexivity. Qed.

Lemma rule_guard_true (t1 t2 : string) :
  PyStr.truthy t1 && PyStr.truthy t2
  && negb (t1 =? "NAN")%string && negb (t2 =? "NAN")%string
  && negb (t1 =? t2)%string = true
  <-> present t1 /\ present t2 /\ t1 <> t2.
Proof.
  unfold present.
  rewrite !andb_true_iff, !negb_true_iff, !String.eqb_neq, !truthy_true.
  tauto.
Qed.

(** A row of the rule book either leaves the map alone or appends one
    entry under a key that was not there. *)
Lemma rule_row_cases (cols : list string) (m m' : conflict_risk_map)
    (row : list cell) :
  rule_row cols m row = Ok m' ->
  m' = m \/
  exists t1 t2 risk,
    present t1 /\ present t2 /\ t1 <> t2 /\
    PyDict.get pair_dec (sorted_pair t1 t2) m = None /\
    m' = m ++ [(sorted_pair t1 t2, risk)].
Proof.
  unfold rule_row.
  destruct (row_get cols row "TCODE1") as [c1|]; simpl; [|discriminate].
  destruct (row_get cols row "TCODE2") as [c2|]; simpl; [|discriminate].
  destruct (row_get cols row "ASK_RISK") as [c3|]; simpl; [|discriminate].
  match goal with |- (if ?g then _ else _) = _ -> _ => destruct g eqn:G end.
  - apply rule_guard_true in G. destruct G as (P1 & P2 & Hne).
    unfold PyDict.mem.
    destruct (PyDict.get pair_dec _ m) eqn:E.
    + intros [= <-]. now left.
    + intros [= <-]. right.
      exists (PyStr.upper (PyStr.strip (str c1))),
             (PyStr.upper (PyStr.strip (str c2))), (PyStr.strip (str c3)).
      split; [exact P1|]. split; [exact P2|]. split; [exact Hne|].
      split; [exact E|]. now apply keys_set_item.
  - intros [= <-]. now left.
Qed.

(** First write wins: an entry, once stored, is never changed. *)
Lemma rule_row_keeps (cols : list string) (m m' : conflict_risk_map)
    (row : list cell) (p : string * string) (risk : string) :
  PyDict.get pair_dec p m = Some risk ->
  rule_row cols m row = Ok m' ->
  PyDict.get pair_dec p m' = Some risk.
Proof.
  intros Hget Hrow. apply rule_row_cases in Hrow.
  destruct Hrow as [-> | (t1 & t2 & r & _ & _ & _ & _ & ->)]; [assumption|].
  now apply get_app_l.
Qed.

Lemma rule_row_ok (cols : list string) (m m' : conflict_risk_map)
    (row : list cell) :
  rule_map_ok m -> rule_row cols m row = Ok m' -> rule_map_ok m'.
Proof.
  intros [Hnd Hall] Hrow. apply rule_row_cases in Hrow.
  destruct Hrow as [-> | (t1 & t2 & r & P1 & P2 & Hne & Hnone & ->)];
    [now split|].
  split.
  - unfold PyDict.keys. rewrite map_app. simpl.
    apply NoDup_snoc; [exact Hnd|]. now apply (get_None pair_dec).
  - apply Forall_app. split; [exact Hall|].
    constructor; [|constructor]. unfold rule_entry_ok. simpl.
    split; [now apply sorted_pair_lt|].
    destruct (sorted_pair_cases t1 t2) as [-> | ->]; simpl; split; assumption.
Qed.

Lemma process_rule_book_ok (rule_df : DataFrame) (m : conflict_risk_map) :
  process_rule_book rule_df = Ok m -> rule_map_ok m.
Proof.
  unfold process_rule_book.
  apply (for_each_invariant _ rule_map_ok).
  - intros s0 r s1 _. apply rule_row_ok.
  - split; constructor.
Qed.

(** On a frame that has the three columns no row raises. *)
Lemma row_get_table3 (h1 h2 h3 : string) (a b c : cell) :
  h1 <> h2 -> h1 <> h3 -> h2 <> h3 ->
  row_get [h1; h2; h3] [a; b; c] h1 = Ok a /\
  row_get [h1; h2; h3] [a; b; c] h2 = Ok b /\
  row_get [h1; h2; h3] [a; b; c] h3 = Ok c.
Proof.
  intros H12 H13 H23. unfold row_get. simpl.
  destruct (string_dec h1 h1); [|congruence].
  destruct (string_dec h2 h1); [congruence|].
  destruct (string_dec h2 h2); [|congruence].
  destruct (string_dec h3 h1); [congruence|].
  destruct (string_dec h3 h2); [congruence|].
  destruct (string_dec h3 h3); [|congruence].
  auto.
Qed.

Lemma rule_table_get (a b c : cell) :
  row_get (columns (rule_table [])) [a; b; c] "TCODE1" = Ok a /\
  row_get (columns (rule_table [])) [a; b; c] "TCODE2" = Ok b /\
  row_get (columns (rule_table [])) [a; b; c] "ASK_RISK" = Ok c.
Proof. apply row_get_table3; discriminate. Qed.







(* ================================================================== *)
(** ** The access graph *)

Lemma access_row_eq (cols : list string) (g : user_role_tcodes * role_tcodes)
    (row : list cell) (c1 c2 c3 : cell) :
  row_get cols row "USER NAME" = Ok c1 ->
  row_get cols row "ROLE" = Ok c2 ->
  row_get cols row "AUTHORIZATION VALUE" = Ok c3 ->
  access_row cols g row =
    if PyStr.truthy (canon_name c1) && PyStr.truthy (canon_name c2)
       && PyStr.truthy (canon_code c3) && negb (canon_code c3 =? "NAN")%string
    then Ok (PyDict.update string_dec (canon_name c1)
               (grant (canon_name c2) (canon_code c3)) [] (fst g),
             grant (canon_name c2) (canon_code c3) (snd g))
    else Ok g.
Proof. intros H1 H2 H3. unfold access_row. rewrite H1, H2, H3. reflexivity. Qed.

Lemma access_guard_true (user role tcode : string) :
  PyStr.truthy user && PyStr.truthy role && PyStr.truthy tcode
  && negb (tcode =? "NAN")%string = true
  <-> user <> "" /\ role <> "" /\ present tcode.
Proof.
  unfold present.
  rewrite !andb_true_iff, !negb_true_iff, !String.eqb_neq, !truthy_true.
  tauto.
Qed.

(** A row of the access table either leaves the graph alone or records
    one present code under a non-empty user and role. *)
Lemma access_row_cases (cols : list string)
    (g g' : user_role_tcodes * role_tcodes) (row : list cell) :
  access_row cols g row = Ok g' ->
  g' = g \/
  exists user role tcode,
    user <> "" /\ role <> "" /\ present tcode /\
    g' = (PyDict.update string_dec user (grant role tcode) [] (fst g),
          grant role tcode (snd g)).
Proof.
  unfold access_row.
  destruct (row_get cols row "USER NAME") as [c1|]; simpl; [|discriminate].
  destruct (row_get cols row "ROLE") as [c2|]; simpl; [|discriminate].
  destruct (row_get cols row "AUTHORIZATION VALUE") as [c3|]; simpl;
    [|discriminate].
  match goal with |- (if ?b then _ else _) = _ -> _ => destruct b eqn:G end.
  - apply access_guard_true in G. destruct G as (Hu & Hr & Ht).
    intros [= <-]. right.
    exists (PyStr.strip (str c1)), (PyStr.strip (str c2)),
           (PyStr.upper (PyStr.strip (str c3))).
    auto.
  - intros [= <-]. now left.
Qed.

Lemma add_In (t x : string) (s : PySet.t) :
  In x (PySet.add t s) <-> x = t \/ In x s.
Proof.
  unfold PySet.add. destruct (in_dec string_dec t s) as [Hin|Hnot].
  - split; [auto|]. intros [->|H]; assumption.
  - rewrite in_app_iff. simpl. split; intros H; intuition congruence.
Qed.

Lemma add_ok (t : string) (s : PySet.t) :
  present t -> set_ok s -> set_ok (PySet.add t s).
Proof.
  intros Ht [Hnd Hall]. unfold PySet.add.
  destruct (in_dec string_dec t s) as [Hin|Hnot]; [now split|].
  split; [now apply NoDup_snoc|].
  apply Forall_app. split; [assumption|]. constructor; [exact Ht|constructor].
Qed.

Lemma empty_ok : set_ok PySet.empty.
Proof. split; constructor. Qed.

Lemma grant_ok (role tcode : string) (d : role_tcodes) :
  present tcode -> roles_ok d -> roles_ok (grant role tcode d).
Proof.
  intros Ht [Hnd Hall]. unfold grant. split.
  - now apply keys_update_NoDup.
  - apply update_Forall; simpl; auto using add_ok, empty_ok.
Qed.

Lemma role_codes_grant (role tcode r : string) (d : role_tcodes) :
  role_codes (grant role tcode d) r
  = if string_dec r role then PySet.add tcode (role_codes d r)
    else role_codes d r.
Proof.
  unfold role_codes, grant. destruct (string_dec r role) as [->|Hne].
  - rewrite get_update_same. now destruct (PyDict.get string_dec role d).
  - now rewrite get_update_other.
Qed.

Lemma grants_update (user role tcode u r : string) (urt : user_role_tcodes) :
  grants (PyDict.update string_dec user (grant role tcode) [] urt) u r
  = if string_dec u user
    then if string_dec r role then PySet.add tcode (grants urt u r)
         else grants urt u r
    else grants urt u r.
Proof.
  unfold grants. destruct (string_dec u user) as [->|Hne].
  - rewrite get_update_same.
    destruct (PyDict.get string_dec user urt) as [roles|].
    + change (match PyDict.get string_dec r (grant role tcode roles) with
              | Some tcodes => tcodes | None => [] end)
        with (role_codes (grant role tcode roles) r).
      rewrite role_codes_grant. reflexivity.
    + change (match PyDict.get string_dec r (grant role tcode []) with
              | Some tcodes => tcodes | None => [] end)
        with (role_codes (grant role tcode []) r).
      rewrite role_codes_grant. reflexivity.
  - now rewrite get_update_other.
Qed.

Lemma access_row_ok (cols : list string)
    (g g' : user_role_tcodes * role_tcodes) (row : list cell) :
  graph_ok g -> access_row cols g row = Ok g' -> graph_ok g'.
Proof.
  intros (Hk & Hu & Hr & Hincl) Hrow. apply access_row_cases in Hrow.
  destruct Hrow as [-> | (user & role & tcode & _ & _ & Ht & ->)];
    [unfold graph_ok; auto|].
  unfold graph_ok. simpl. split; [now apply keys_update_NoDup|].
  split.
  { apply update_Forall; simpl; auto using grant_ok.
    apply grant_ok; [assumption|]. split; constructor. }
  split; [now apply grant_ok|].
  intros u r x. rewrite grants_update, role_codes_grant.
  specialize (Hincl u r).
  destruct (string_dec u user) as [->|Hu'];
    destruct (string_dec r role) as [->|Hr']; rewrite ?add_In; auto.
  intros [->|H]; auto.
Qed.

Lemma process_user_access_ok (user_df : DataFrame)
    (g : user_role_tcodes * role_tcodes) :
  process_user_access user_df = Ok g -> graph_ok g.
Proof.
  unfold process_user_access.
  apply (for_each_invariant _ graph_ok).
  - intros s0 r s1 _. apply access_row_ok.
  - repeat split; try constructor. intros u r x [].
Qed.

(* ================================================================== *)
(** ** The detection passes *)

Lemma combinations2_In (a b : string) (l : list string) :
  In (a, b) (combinations2 l) -> In a l /\ In b l.
Proof.
  induction l as [|x l IH]; simpl; [tauto|].
  rewrite in_app_iff, in_map_iff.
  intros [(y & [= <- <-] & Hy)|H]; [auto|]. destruct (IH H). auto.
Qed.

Lemma combinations2_neq (a b : string) (l : list string) :
  NoDup l -> In (a, b) (combinations2 l) -> a <> b.
Proof.
  induction l as [|x l IH]; simpl; [tauto|].
  intros Hnd. inversion Hnd as [|? ? Hnotin Hnd']; subst.
  rewrite in_app_iff, in_map_iff.
  intros [(y & [= <- <-] & Hy)|H]; [congruence|auto].
Qed.

Lemma combinations2_complete (a b : string) (l : list string) :
  In a l -> In b l -> a <> b ->
  In (a, b) (combinations2 l) \/ In (b, a) (combinations2 l).
Proof.
  induction l as [|x l IH]; simpl; [tauto|].
  rewrite !in_app_iff, !in_map_iff.
  intros [->|Ha] [->|Hb] Hne.
  - congruence.
  - left. left. eauto.
  - right. left. eauto.
  - destruct (IH Ha Hb Hne); auto.
Qed.

Lemma user_role_pass_eq (o : set_order) (m : conflict_risk_map)
    (user role : string) (tcodes : PySet.t) :
  user_role_pass o m user role tcodes
  = map (user_record user role) (matches o m tcodes).
Proof.
  unfold user_role_pass, matches.
  induction (combinations2 (o tcodes)) as [|[t1 t2] l IH]; simpl;
    [reflexivity|].
  rewrite map_app, IH. now destruct (PyDict.get pair_dec _ m).
Qed.

Lemma role_pass_eq (o : set_order) (m : conflict_risk_map)
    (role : string) (tcodes : PySet.t) :
  role_pass o m role tcodes = map (role_record role) (matches o m tcodes).
Proof.
  unfold role_pass, matches.
  induction (combinations2 (o tcodes)) as [|[t1 t2] l IH]; simpl;
    [reflexivity|].
  rewrite map_app, IH. now destruct (PyDict.get pair_dec _ m).
Qed.

(** Soundness: a match is the sorted form of two distinct codes of the
    set, and carries the risk stored for them. *)
Lemma matches_sound (o : set_order) (m : conflict_risk_map) (tcodes : PySet.t)
    (p : string * string) (risk : string) :
  NoDup tcodes -> In (p, risk) (matches o m tcodes) ->
  exists t1 t2,
    In t1 tcodes /\ In t2 tcodes /\ t1 <> t2 /\
    p = sorted_pair t1 t2 /\ severity_of m t1 t2 = Some risk.
Proof.
  intros Hnd Hin. unfold matches in Hin. apply in_flat_map in Hin.
  destruct Hin as ([t1 t2] & Hc & Hin). exists t1, t2.
  pose proof (iter_perm o tcodes) as Hp.
  destruct (combinations2_In _ _ _ Hc) as [H1 H2].
  split; [eapply Permutation_in; eauto|].
  split; [eapply Permutation_in; eauto|].
  split.
  { eapply combinations2_neq; [|exact Hc].
    eapply Permutation_NoDup; [apply Permutation_sym; exact Hp|exact Hnd]. }
  unfold severity_of.
  destruct (PyDict.get pair_dec (sorted_pair t1 t2) m) as [r|]; [|destruct Hin].
  destruct Hin as [[= <- <-]|[]]. auto.
Qed.

(** Completeness: two distinct codes of the set with a stored risk give
    a match, whatever the iteration order. *)
Lemma matches_complete (o : set_order) (m : conflict_risk_map)
    (tcodes : PySet.t) (a b risk : string) :
  In a tcodes -> In b tcodes -> a <> b ->
  severity_of m a b = Some risk ->
  In (sorted_pair a b, risk) (matches o m tcodes).
Proof.
  intros Ha Hb Hne Hs. unfold matches. apply in_flat_map.
  pose proof (iter_perm o tcodes) as Hp. apply Permutation_sym in Hp.
  assert (Ha' : In a (o tcodes)) by (eapply Permutation_in; eauto).
  assert (Hb' : In b (o tcodes)) by (eapply Permutation_in; eauto).
  unfold severity_of in Hs.
  destruct (combinations2_complete _ _ _ Ha' Hb' Hne) as [Hc|Hc].
  - exists (a, b). split; [exact Hc|]. rewrite Hs. now left.
  - exists (b, a). split; [exact Hc|].
    rewrite (sorted_pair_comm b a), Hs. now left.
Qed.

Lemma matches_small (o : set_order) (m : conflict_risk_map) (tcodes : PySet.t) :
  List.length tcodes <= 1 -> matches o m tcodes = [].
Proof.
  intros Hlen. unfold matches.
  pose proof (Permutation_length (iter_perm o tcodes)) as Hl.
  destruct (o tcodes) as [|x [|y l]]; simpl in *; try reflexivity. lia.
Qed.

(** The matches of a set do not depend on the order of iteration. *)
Lemma matches_order (o o' : set_order) (m : conflict_risk_map)
    (tcodes : PySet.t) (e : (string * string) * string) :
  NoDup tcodes -> In e (matches o m tcodes) -> In e (matches o' m tcodes).
Proof.
  intros Hnd He. destruct e as [p risk].
  destruct (matches_sound _ _ _ _ _ Hnd He) as (t1 & t2 & I1 & I2 & Hne & -> & Hs).
  now apply matches_complete.
Qed.

(** A record of the role-level pass comes from the set of its role. *)
Lemma role_violations_In (o : set_order) (urt : user_role_tcodes)
    (rtt : role_tcodes) (m : conflict_risk_map) (v : role_violation) :
  NoDup (PyDict.keys rtt) ->
  In v (snd (analyze_violations o urt rtt m)) <->
  In v (role_pass o m (r_ROLE v) (role_codes rtt (r_ROLE v))).
Proof.
  intros Hnd. unfold analyze_violations. simpl. rewrite in_flat_map. split.
  - intros ([role tcodes] & Hin & Hv).
    assert (E : r_ROLE v = role).
    { rewrite role_pass_eq in Hv. apply in_map_iff in Hv.
      now destruct Hv as (e & <- & _). }
    unfold role_codes. rewrite E.
    now rewrite (In_get string_dec _ _ _ Hnd Hin).
  - intros Hv. unfold role_codes in Hv.
    destruct (PyDict.get string_dec (r_ROLE v) rtt) as [tcodes|] eqn:G.
    + exists (r_ROLE v, tcodes). split; [now apply (get_In string_dec)|exact Hv].
    + rewrite role_pass_eq, matches_small in Hv by (simpl; lia). destruct Hv.
Qed.

(** A record of the user-level pass comes from the set that its user
    holds through its role. *)
Lemma user_violations_In (o : set_order) (urt : user_role_tcodes)
    (rtt : role_tcodes) (m : conflict_risk_map) (v : user_violation) :
  NoDup (PyDict.keys urt) ->
  Forall (fun e => roles_ok (snd e)) urt ->
  In v (fst (analyze_violations o urt rtt m)) <->
  In v (user_role_pass o m (USER_NAME v) (ROLE v)
          (grants urt (USER_NAME v) (ROLE v))).
Proof.
  intros Hnd Hall. unfold analyze_violations. simpl. rewrite in_flat_map. split.
  - intros ([user roles] & Hin & Hv). apply in_flat_map in Hv.
    destruct Hv as ([role tcodes] & Hin' & Hv).
    assert (E : USER_NAME v = user /\ ROLE v = role).
    { rewrite user_role_pass_eq in Hv. apply in_map_iff in Hv.
      now destruct Hv as (e & <- & _). }
    destruct E as [E1 E2]. unfold grants. rewrite E1, E2.
    rewrite (In_get string_dec _ _ _ Hnd Hin).
    rewrite Forall_forall in Hall. destruct (Hall _ Hin) as [Hnd' _].
    simpl in Hnd'.
    now rewrite (In_get string_dec _ _ _ Hnd' Hin').
  - intros Hv. unfold grants in Hv.
    destruct (PyDict.get string_dec (USER_NAME v) urt) as [roles|] eqn:G.
    + destruct (PyDict.get string_dec (ROLE v) roles) as [tcodes|] eqn:G'.
      * exists (USER_NAME v, roles). split; [now apply (get_In string_dec)|].
        apply in_flat_map. exists (ROLE v, tcodes).
        split; [now apply (get_In string_dec)|exact Hv].
      * rewrite user_role_pass_eq, matches_small in Hv by (simpl; lia).
        destruct Hv.
    + rewrite user_role_pass_eq, matches_small in Hv by (simpl; lia).
      destruct Hv.
Qed.

(* ================================================================== *)
(** ** Properties of the rule book *)

Lemma rule_columns_NoDup : NoDup rule_columns.
Proof.
  unfold rule_columns. repeat constructor; simpl; intuition discriminate.
Qed.

Lemma access_columns_NoDup : NoDup (normalize_columns access_columns).
Proof.
  change (normalize_columns access_columns) with access_columns.
  unfold access_columns. repeat constructor; simpl; intuition discriminate.
Qed.

Lemma access_columns_ascii : ascii_header access_columns.
Proof. split; [discriminate|]. repeat constructor. Qed.

Lemma rule_columns_ascii : ascii_header rule_columns.
Proof. split; [discriminate|]. repeat constructor. Qed.

(** C9 (self-conflict exclusion).  In a rule book whose header has no
    name twice, a rule row whose two code cells, ASCII text, have the same
    canonical form (equal as written, or equal only after trimming and
    uppercasing) leaves the conflict map as it was and raises nothing:
    the loop body returns the map unchanged, the row can be deleted from
    the table without changing the result of [process_rule_book], and no
    map built by [process_rule_book] has a key whose two codes are equal. *)
Theorem self_conflict_dropped (cols : list string) (row : list cell)
    (c1 c2 c3 : cell) :
  NoDup cols ->
  ascii_cell c1 -> ascii_cell c2 ->
  row_get cols row "TCODE1" = Ok c1 ->
  row_get cols row "TCODE2" = Ok c2 ->
  row_get cols row "ASK_RISK" = Ok c3 ->
  canon_code c1 = canon_code c2 ->
  (forall m, rule_row cols m row = Ok m) /\
  (forall before after,
      process_rule_book {| columns := cols; rows := before ++ row :: after |}
      = process_rule_book {| columns := cols; rows := before ++ after |}) /\
  (forall rule_df m a b risk,
      process_rule_book rule_df = Ok m -> In ((a, b), risk) m -> a <> b).
Proof.
  intros _ _ _ H1 H2 H3 Heq.
  assert (Hrow : forall m, rule_row cols m row = Ok m).
  { intros m. rewrite (rule_row_eq _ _ _ _ _ _ H1 H2 H3), Heq.
    rewrite String.eqb_refl. simpl. now rewrite !andb_false_r. }
  split; [exact Hrow|]. split.
  - intros before after. unfold process_rule_book. simpl.
    now apply for_each_skip.
  - intros rule_df m a b risk Hm Hin Hab. subst b.
    destruct (process_rule_book_ok _ _ Hm) as [_ Hall].
    rewrite Forall_forall in Hall. destruct (Hall _ Hin) as [Hlt _].
    now apply lt_irrefl in Hlt.
Qed.

Lemma self_conflict_dropped_witness :
  process_rule_book
    (rule_table [(Text "A", Text "B", Text "Low");
                 (Text " fb01", Text "FB01 ", Text "High")])
  = process_rule_book (rule_table [(Text "A", Text "B", Text "Low")]).
Proof.
  exact (proj1 (proj2
    (self_conflict_dropped rule_columns
       [Text " fb01"; Text "FB01 "; Text "High"]
       (Text " fb01") (Text "FB01 ") (Text "High")
       rule_columns_NoDup eq_refl eq_refl
       eq_refl eq_refl eq_refl eq_refl))
    [[Text "A"; Text "B"; Text "Low"]] []).
Defined.



(** Everything that the passes report is an entry of the conflict map. *)
Lemma matches_stored (o : set_order) (m : conflict_risk_map) (tcodes : PySet.t)
    (e : (string * string) * string) :
  In e (matches o m tcodes) -> In e m.
Proof.
  unfold matches. rewrite in_flat_map. intros ([t1 t2] & _ & Hin).
  destruct (PyDict.get pair_dec (sorted_pair t1 t2) m) as [r|] eqn:G;
    [|destruct Hin].
  destruct Hin as [<-|[]]. now apply (get_In pair_dec).
Qed.

Lemma run_analysis_inv (o : set_order) (rule_file user_file : DataFrame)
    (s : session) :
  run_analysis o rule_file user_file = Ok s ->
  exists m g,
    process_rule_book (load_rule_book rule_file) = Ok m /\
    process_user_access user_file = Ok g /\
    s = {| conflict_pairs := List.length m;
           total_users := List.length (fst g);
           total_roles := List.length (snd g);
           user_violations := fst (analyze_violations o (fst g) (snd g) m);
           role_violations := snd (analyze_violations o (fst g) (snd g) m) |}.
Proof.
  unfold run_analysis.
  destruct (process_rule_book (load_rule_book rule_file)) as [m|];
    simpl; [|discriminate].
  destruct (process_user_access user_file) as [g|]; simpl; [|discriminate].
  intros [= <-]. now exists m, g.
Qed.

Lemma main_inv (o : set_order) (rule_file user_file : DataFrame) (s : session) :
  main o rule_file user_file = Analyzed s ->
  run_analysis o rule_file user_file = Ok s.
Proof.
  unfold main. destruct (run_analysis o rule_file user_file);
    [now intros [= ->]|discriminate].
Qed.

Lemma graph_sets_ok (g : user_role_tcodes * role_tcodes) (user role : string) :
  graph_ok g ->
  set_ok (grants (fst g) user role) /\ set_ok (role_codes (snd g) role).
Proof.
  intros (Hk & Hu & [Hrk Hr] & _). split.
  - unfold grants.
    destruct (PyDict.get string_dec user (fst g)) as [roles|] eqn:G;
      [|apply empty_ok].
    destruct (PyDict.get string_dec role roles) as [tcodes|] eqn:G';
      [|apply empty_ok].
    apply (get_In string_dec) in G, G'.
    rewrite Forall_forall in Hu. destruct (Hu _ G) as [_ Hall].
    rewrite Forall_forall in Hall. exact (Hall _ G').
  - unfold role_codes.
    destruct (PyDict.get string_dec role (snd g)) as [tcodes|] eqn:G;
      [|apply empty_ok].
    apply (get_In string_dec) in G.
    rewrite Forall_forall in Hr. exact (Hr _ G).
Qed.

Lemma present_not_nan (s : PySet.t) : Forall present s -> ~ In "NAN" s.
Proof.
  intros H Hin. rewrite Forall_forall in H. destruct (H _ Hin). congruence.
Qed.

(** C10 ('NAN' is never a code).  In tables whose header has no name
    twice (for the access table: a non-empty header of ASCII names,
    distinct after normalisation), a rule row with an ASCII code cell
    whose canonical form is the string NAN can be deleted from the rule
    table without changing the conflict map, and an access row with such a
    code cell can be deleted without changing the access graph; no key of
    a conflict map, no set of an access graph and no violation record of a
    completed run mentions the code NAN. *)
Theorem nan_code_is_absent :
  (forall cols row c1 c2 c3 before after,
      NoDup cols ->
      ascii_cell c1 -> ascii_cell c2 ->
      row_get cols row "TCODE1" = Ok c1 ->
      row_get cols row "TCODE2" = Ok c2 ->
      row_get cols row "ASK_RISK" = Ok c3 ->
      canon_code c1 = "NAN" \/ canon_code c2 = "NAN" ->
      process_rule_book {| columns := cols; rows := before ++ row :: after |}
      = process_rule_book {| columns := cols; rows := before ++ after |}) /\
  (forall cols row c1 c2 c3 before after,
      ascii_header cols -> NoDup (normalize_columns cols) ->
      ascii_cell c3 ->
      row_get (normalize_columns cols) row "USER NAME" = Ok c1 ->
      row_get (normalize_columns cols) row "ROLE" = Ok c2 ->
      row_get (normalize_columns cols) row "AUTHORIZATION VALUE" = Ok c3 ->
      canon_code c3 = "NAN" ->
      process_user_access {| columns := cols; rows := before ++ row :: after |}
      = process_user_access {| columns := cols; rows := before ++ after |}) /\
  (forall rule_df m a b risk,
      process_rule_book rule_df = Ok m -> In ((a, b), risk) m ->
      a <> "NAN" /\ b <> "NAN") /\
  (forall user_df urt rtt user role,
      process_user_access user_df = Ok (urt, rtt) ->
      ~ In "NAN" (grants urt user role) /\ ~ In "NAN" (role_codes rtt role)) /\
  (forall o rule_file user_file s,
      main o rule_file user_file = Analyzed s ->
      (forall v, In v (user_violations s) ->
                 TCODE_1 v <> "NAN" /\ TCODE_2 v <> "NAN") /\
      (forall v, In v (role_violations s) ->
                 r_TCODE_1 v <> "NAN" /\ r_TCODE_2 v <> "NAN")).
Proof.
  assert (Hkeys : forall rule_df m a b risk,
             process_rule_book rule_df = Ok m -> In ((a, b), risk) m ->
             a <> "NAN" /\ b <> "NAN").
  { intros rule_df m a b risk Hm Hin.
    destruct (process_rule_book_ok _ _ Hm) as [_ Hall].
    rewrite Forall_forall in Hall.
    destruct (Hall _ Hin) as (_ & [_ Ha] & [_ Hb]). auto. }
  split; [|split; [|split; [exact Hkeys|split]]].
  - intros cols row c1 c2 c3 before after _ _ _ H1 H2 H3 Hnan.
    unfold process_rule_book. simpl. apply for_each_skip. intros m.
    rewrite (rule_row_eq _ _ _ _ _ _ H1 H2 H3).
    destruct Hnan as [-> | ->]; simpl; now rewrite ?andb_false_r.
  - intros cols row c1 c2 c3 before after _ _ _ H1 H2 H3 Hnan.
    unfold process_user_access. simpl. apply for_each_skip. intros g.
    rewrite (access_row_eq _ _ _ _ _ _ H1 H2 H3), Hnan. simpl.
    now rewrite ?andb_false_r.
  - intros user_df urt rtt user role Hg.
    apply process_user_access_ok in Hg.
    destruct (graph_sets_ok _ user role Hg) as [[_ H1] [_ H2]].
    split; now apply present_not_nan.
  - intros o rule_file user_file s Hmain.
    apply main_inv, run_analysis_inv in Hmain.
    destruct Hmain as (m & g & Hm & _ & ->). simpl. split.
    + intros v Hv. apply in_flat_map in Hv. destruct Hv as ([u roles] & _ & Hv).
      apply in_flat_map in Hv. destruct Hv as ([r tcodes] & _ & Hv).
      rewrite user_role_pass_eq in Hv. apply in_map_iff in Hv.
      destruct Hv as ([[a b] risk] & <- & He). simpl.
      apply matches_stored in He. eapply Hkeys; eauto.
    + intros v Hv. apply in_flat_map in Hv. destruct Hv as ([r tcodes] & _ & Hv).
      rewrite role_pass_eq in Hv. apply in_map_iff in Hv.
      destruct Hv as ([[a b] risk] & <- & He). simpl.
      apply matches_stored in He. eapply Hkeys; eauto.
Qed.

Lemma nan_code_is_absent_witness :
  process_rule_book
    (rule_table [(Text " nan", Text "FB01", Text "High");
                 (Text "FB01", Text "FB02", Text "Low")])
  = process_rule_book (rule_table [(Text "FB01", Text "FB02", Text "Low")]) /\
  process_user_access
    (access_table [(Text "U1", Text "R1", Text "FB01");
                   (Text "U1", Text "R1", Text "NaN ")])
  = process_user_access (access_table [(Text "U1", Text "R1", Text "FB01")]).
Proof.
  split.
  - exact (proj1 nan_code_is_absent rule_columns
             [Text " nan"; Text "FB01"; Text "High"]
             (Text " nan") (Text "FB01") (Text "High")
             [] [[Text "FB01"; Text "FB02"; Text "Low"]]
             rule_columns_NoDup eq_refl eq_refl
             eq_refl eq_refl eq_refl (or_introl eq_refl)).
  - exact (proj1 (proj2 nan_code_is_absent) access_columns
             [Text "U1"; Text "R1"; Text "NaN "]
             (Text "U1") (Text "R1") (Text "NaN ")
             [[Text "U1"; Text "R1"; Text "FB01"]] []
             access_columns_ascii access_columns_NoDup eq_refl
             eq_refl eq_refl eq_refl eq_refl).
Defined.

(* ================================================================== *)
(** ** Properties of the access graph *)

(** X20: rows that [process_user_access] does skip.  In an access table
    with a non-empty header of ASCII names, distinct after normalisation,
    a row whose code cell is empty, ASCII blanks, NaN or spelled nan, or
    whose user or role cell is empty or ASCII blanks, can be deleted from
    the table without changing the access graph. *)
Lemma blank_fields_skipped (cols : list string) (row : list cell)
    (c1 c2 c3 : cell) (before after : list (list cell)) :
  ascii_header cols -> NoDup (normalize_columns cols) ->
  ascii_cell c1 -> ascii_cell c2 -> ascii_cell c3 ->
  row_get (normalize_columns cols) row "USER NAME" = Ok c1 ->
  row_get (normalize_columns cols) row "ROLE" = Ok c2 ->
  row_get (normalize_columns cols) row "AUTHORIZATION VALUE" = Ok c3 ->
  canon_name c1 = "" \/ canon_name c2 = "" \/
  canon_code c3 = "" \/ canon_code c3 = "NAN" ->
  process_user_access {| columns := cols; rows := before ++ row :: after |}
  = process_user_access {| columns := cols; rows := before ++ after |}.
Proof.
  intros _ _ _ _ _ H1 H2 H3 Hblank.
  unfold process_user_access. simpl. apply for_each_skip. intros g.
  rewrite (access_row_eq _ _ _ _ _ _ H1 H2 H3).
  destruct Hblank as [-> | [-> | [-> | ->]]]; simpl;
    now rewrite ?andb_false_r.
Qed.

(** C1 (rows with an absent field).  The guard of [process_user_access]
    compares only the code with the NaN placeholder: a row whose user
    cell, or whose role cell, is missing is not skipped, and the text
    [nan] becomes a user, respectively a role, of the graph. *)
Theorem missing_name_row_is_kept :
  process_user_access (access_table [(NaN, Text "R1", Text "TX1")])
  = Ok ([("nan", [("R1", ["TX1"])])], [("R1", ["TX1"])]) /\
  process_user_access (access_table [(Text "U1", NaN, Text "TX1")])
  = Ok ([("U1", [("nan", ["TX1"])])], [("nan", ["TX1"])]).
Proof. split; reflexivity. Qed.




(* ================================================================== *)
(** ** Small sets *)

Lemma matches_two (o : set_order) (m : conflict_risk_map) (a b : string) :
  matches o m [a; b]
  = match PyDict.get pair_dec (sorted_pair a b) m with
    | Some risk => [(sorted_pair a b, risk)]
    | None => []
    end.
Proof.
  unfold matches.
  destruct (Permutation_length_2_inv (Permutation_sym (iter_perm o [a; b])))
    as [-> | ->]; simpl.
  - now rewrite app_nil_r.
  - rewrite (sorted_pair_comm b a). now rewrite app_nil_r.
Qed.

Lemma Permutation_length_3_inv {A : Type} (a b c : A) (l : list A) :
  Permutation l [a; b; c] ->
  l = [a; b; c] \/ l = [a; c; b] \/ l = [b; a; c] \/
  l = [b; c; a] \/ l = [c; a; b] \/ l = [c; b; a].
Proof.
  intros Hp. pose proof (Permutation_length Hp) as Hlen.
  destruct l as [|x [|y [|z [|w l]]]]; simpl in Hlen; try discriminate.
  assert (Hx : In x [a; b; c]) by (eapply Permutation_in; [exact Hp|now left]).
  destruct Hx as [<-|[<-|[<-|[]]]].
  - apply Permutation_cons_inv in Hp. apply Permutation_sym in Hp.
    destruct (Permutation_length_2_inv Hp) as [[= -> ->]|[= -> ->]]; auto.
  - assert (Hp' : Permutation (b :: [y; z]) (b :: [a; c])).
    { eapply Permutation_trans; [exact Hp|]. apply perm_swap. }
    apply Permutation_cons_inv in Hp'. apply Permutation_sym in Hp'.
    destruct (Permutation_length_2_inv Hp') as [[= -> ->]|[= -> ->]]; auto 10.
  - assert (Hp' : Permutation (c :: [y; z]) (c :: [a; b])).
    { eapply Permutation_trans; [exact Hp|].
      eapply Permutation_trans; [apply perm_skip, perm_swap|apply perm_swap]. }
    apply Permutation_cons_inv in Hp'. apply Permutation_sym in Hp'.
    destruct (Permutation_length_2_inv Hp') as [[= -> ->]|[= -> ->]]; auto 10.
Qed.

(** Three codes of which two pairs conflict: two matches, whatever the
    order in which the set is iterated. *)
Lemma matches_three (o : set_order) (m : conflict_risk_map) (s : PySet.t)
    (a b c rab rac : string) :
  Permutation s [a; b; c] ->
  severity_of m a b = Some rab ->
  severity_of m a c = Some rac ->
  severity_of m b c = None ->
  Permutation (matches o m s) [(sorted_pair a b, rab); (sorted_pair a c, rac)].
Proof.
  unfold severity_of. intros Hs Hab Hac Hbc.
  assert (Hba := Hab). assert (Hca := Hac). assert (Hcb := Hbc).
  rewrite sorted_pair_comm in Hba, Hca, Hcb.
  assert (Hp : Permutation (o s) [a; b; c])
    by (eapply Permutation_trans; [apply iter_perm|exact Hs]).
  unfold matches.
  destruct (Permutation_length_3_inv _ _ _ _ Hp)
    as [-> | [-> | [-> | [-> | [-> | ->]]]]]; simpl;
    rewrite ?Hab, ?Hac, ?Hbc, ?Hba, ?Hca, ?Hcb; simpl;
    rewrite <- ?(sorted_pair_comm a b), <- ?(sorted_pair_comm a c);
    try apply Permutation_refl; apply perm_swap.
Qed.

(* ================================================================== *)
(** ** The whole run *)

(** C4 (end-to-end example).  On the rule table [(TX1, TX2, High)] and the
    access table [(Alice, R1, TX1); (Alice, R1, TX2); (Bob, R2, TX1)] the
    run stores one user-level violation (Alice, R1, TX1, TX2, High), one
    role-level violation (R1, TX1, TX2, High) and the counts 1 pair,
    2 users, 2 roles, whatever the iteration order of the sets. *)
Theorem end_to_end_example (o : set_order) :
  main o
    (rule_table [(Text "TX1", Text "TX2", Text "High")])
    (access_table [(Text "Alice", Text "R1", Text "TX1");
                   (Text "Alice", Text "R1", Text "TX2");
                   (Text "Bob", Text "R2", Text "TX1")])
  = Analyzed
      {| conflict_pairs := 1;
         total_users := 2;
         total_roles := 2;
         user_violations :=
           [{| USER_NAME := "Alice"; ROLE := "R1";
               TCODE_1 := "TX1"; TCODE_2 := "TX2"; RISK_FACTOR := "High" |}];
         role_violations :=
           [{| r_ROLE := "R1";
               r_TCODE_1 := "TX1"; r_TCODE_2 := "TX2";
               r_RISK_FACTOR := "High" |}] |}.
Proof.
  unfold main, run_analysis.
  replace (process_rule_book
             (load_rule_book (rule_table [(Text "TX1", Text "TX2", Text "High")])))
    with (@Ok conflict_risk_map [(("TX1", "TX2"), "High")]) by reflexivity.
  replace (process_user_access
             (access_table [(Text "Alice", Text "R1", Text "TX1");
                            (Text "Alice", Text "R1", Text "TX2");
                            (Text "Bob", Text "R2", Text "TX1")]))
    with (@Ok (user_role_tcodes * role_tcodes)
            ([("Alice", [("R1", ["TX1"; "TX2"])]); ("Bob", [("R2", ["TX1"])])],
             [("R1", ["TX1"; "TX2"]); ("R2", ["TX1"])])) by reflexivity.
  cbn [bind fst snd analyze_violations flat_map List.length].
  rewrite !user_role_pass_eq, !role_pass_eq.
  rewrite matches_two, (matches_small o _ ["TX1"]) by (simpl; lia).
  reflexivity.
Qed.

(* ================================================================== *)
(** ** Missing columns *)

Lemma index_of_None (col : string) (cols : list string) :
  index_of col cols = None <-> ~ In col cols.
Proof.
  induction cols as [|c cols IH]; simpl; [tauto|].
  destruct (string_dec col c) as [->|Hne].
  - split; [discriminate|]. intros H. exfalso. apply H. now left.
  - destruct (index_of col cols).
    + split; [discriminate|]. intros H. exfalso. apply H. right.
      destruct (in_dec string_dec col cols) as [Hin|Hnot]; [exact Hin|].
      now apply IH in Hnot.
    + split; [|reflexivity]. intros _ [E|Hin]; [congruence|].
      now apply (proj1 IH).
Qed.

Lemma row_get_missing (cols : list string) (row : list cell) (col : string) :
  ~ In col cols -> row_get cols row col = KeyError col.
Proof. intros H. unfold row_get. now rewrite (proj2 (index_of_None _ _) H). Qed.

Lemma row_get_found (cols : list string) (row : list cell) (col : string) :
  In col cols -> exists c, row_get cols row col = Ok c.
Proof.
  intros H. unfold row_get. destruct (index_of col cols) eqn:E; [eauto|].
  now apply index_of_None in E.
Qed.

(** The loop bodies raise for the first of their columns, in the order
    in which they read them, that the frame does not have. *)
Lemma rule_row_missing (cols : list string) :
  (exists c, In c rule_columns /\ ~ In c cols) ->
  exists k, In k rule_columns /\ ~ In k cols /\
            forall m row, rule_row cols m row = KeyError k.
Proof.
  intros (c & Hc & Hmiss). unfold rule_columns in *.
  destruct (in_dec string_dec "TCODE1" cols) as [I1|N1].
  2:{ exists "TCODE1". split; [simpl; auto|]. split; [exact N1|].
      intros m row. unfold rule_row. now rewrite (row_get_missing _ _ _ N1). }
  destruct (in_dec string_dec "TCODE2" cols) as [I2|N2].
  2:{ exists "TCODE2". split; [simpl; auto|]. split; [exact N2|].
      intros m row. unfold rule_row.
      destruct (row_get_found _ row _ I1) as [c1 ->].
      now rewrite (row_get_missing _ _ _ N2). }
  destruct (in_dec string_dec "ASK_RISK" cols) as [I3|N3].
  2:{ exists "ASK_RISK". split; [simpl; auto|]. split; [exact N3|].
      intros m row. unfold rule_row.
      destruct (row_get_found _ row _ I1) as [c1 ->].
      destruct (row_get_found _ row _ I2) as [c2 ->].
      now rewrite (row_get_missing _ _ _ N3). }
  exfalso. destruct Hc as [<-|[<-|[<-|[]]]]; contradiction.
Qed.

Lemma access_row_missing (cols : list string) :
  (exists c, In c access_columns /\ ~ In c cols) ->
  exists k, In k access_columns /\ ~ In k cols /\
            forall g row, access_row cols g row = KeyError k.
Proof.
  intros (c & Hc & Hmiss). unfold access_columns in *.
  destruct (in_dec string_dec "USER NAME" cols) as [I1|N1].
  2:{ exists "USER NAME". split; [simpl; auto|]. split; [exact N1|].
      intros m row. unfold access_row. now rewrite (row_get_missing _ _ _ N1). }
  destruct (in_dec string_dec "ROLE" cols) as [I2|N2].
  2:{ exists "ROLE". split; [simpl; auto|]. split; [exact N2|].
      intros m row. unfold access_row.
      destruct (row_get_found _ row _ I1) as [c1 ->].
      now rewrite (row_get_missing _ _ _ N2). }
  destruct (in_dec string_dec "AUTHORIZATION VALUE" cols) as [I3|N3].
  2:{ exists "AUTHORIZATION VALUE". split; [simpl; auto|]. split; [exact N3|].
      intros m row. unfold access_row.
      destruct (row_get_found _ row _ I1) as [c1 ->].
      destruct (row_get_found _ row _ I2) as [c2 ->].
      now rewrite (row_get_missing _ _ _ N3). }
  exfalso. destruct Hc as [<-|[<-|[<-|[]]]]; contradiction.
Qed.

Lemma append_inj_l (p a b : string) : (p ++ a)%string = (p ++ b)%string -> a = b.
Proof. induction p as [|c p IH]; simpl; [auto|]. intros [= H]. auto. Qed.

Lemma append_quote_inj (a b : string) :
  (a ++ "'")%string = (b ++ "'")%string -> a = b.
Proof.
  revert b. induction a as [|c a IH]; intros [|d b]; simpl.
  - reflexivity.
  - intros [= <- H]. destruct b; discriminate.
  - intros [= -> H]. destruct a; discriminate.
  - intros [= -> H]. f_equal. auto.
Qed.

(** The text shown for a missing column determines the column. *)
Lemma error_message_inj (k1 k2 : string) :
  error_message k1 = error_message k2 -> k1 = k2.
Proof.
  unfold error_message. intros H.
  apply append_inj_l in H. apply (append_inj_l "'") in H.
  now apply append_quote_inj.
Qed.

(** C8, as stated, fails: a rule table that has no [ASK_RISK] column and
    no rows is processed without any error, and the run ends like a run
    that found nothing. *)
Lemma missing_column_unnoticed :
  ~ In "ASK_RISK" (normalize_columns ["TCODE1"; "TCODE2"]) /\
  main insertion_order
       {| columns := ["TCODE1"; "TCODE2"]; rows := [] |}
       (access_table [(Text "U1", Text "R1", Text "TX1")])
  = Analyzed {| conflict_pairs := 0; total_users := 1; total_roles := 1;
                user_violations := []; role_violations := [] |}.
Proof.
  split.
  - simpl. intros [H|[H|[]]]; discriminate.
  - reflexivity.
Qed.

Lemma first_missing_Some (required cols : list string) (k : string) :
  first_missing required cols = Some k -> In k required /\ ~ In k cols.
Proof.
  unfold first_missing. intros H. apply find_some in H. destruct H as [Hin Hk].
  split; [exact Hin|]. now destruct (in_dec string_dec k cols).
Qed.

Lemma first_missing_exists (required cols : list string) :
  (exists c, In c required /\ ~ In c cols) ->
  exists k, first_missing required cols = Some k.
Proof.
  intros (c & Hc & Hmiss). unfold first_missing.
  destruct (find _ required) as [k|] eqn:E; [eauto|].
  pose proof (find_none _ _ E c Hc) as H. simpl in H.
  now destruct (in_dec string_dec c cols).
Qed.

(** The loop bodies raise for the first column, in reading order, that
    the header lacks. *)
Lemma rule_row_first_missing (cols : list string) (k : string) :
  first_missing rule_columns cols = Some k ->
  forall m row, rule_row cols m row = KeyError k.
Proof.
  unfold first_missing, rule_columns. simpl. intros Hk m row. unfold rule_row.
  destruct (in_dec string_dec "TCODE1" cols) as [I1|N1].
  2:{ injection Hk as <-. now rewrite (row_get_missing _ _ _ N1). }
  destruct (row_get_found _ row _ I1) as [c1 ->]. simpl.
  destruct (in_dec string_dec "TCODE2" cols) as [I2|N2].
  2:{ injection Hk as <-. now rewrite (row_get_missing _ _ _ N2). }
  destruct (row_get_found _ row _ I2) as [c2 ->]. simpl.
  destruct (in_dec string_dec "ASK_RISK" cols) as [I3|N3]; [discriminate|].
  injection Hk as <-. now rewrite (row_get_missing _ _ _ N3).
Qed.

Lemma access_row_first_missing (cols : list string) (k : string) :
  first_missing access_columns cols = Some k ->
  forall g row, access_row cols g row = KeyError k.
Proof.
  unfold first_missing, access_columns. simpl. intros Hk g row.
  unfold access_row.
  destruct (in_dec string_dec "USER NAME" cols) as [I1|N1].
  2:{ injection Hk as <-. now rewrite (row_get_missing _ _ _ N1). }
  destruct (row_get_found _ row _ I1) as [c1 ->]. simpl.
  destruct (in_dec string_dec "ROLE" cols) as [I2|N2].
  2:{ injection Hk as <-. now rewrite (row_get_missing _ _ _ N2). }
  destruct (row_get_found _ row _ I2) as [c2 ->]. simpl.
  destruct (in_dec string_dec "AUTHORIZATION VALUE" cols) as [I3|N3];
    [discriminate|].
  injection Hk as <-. now rewrite (row_get_missing _ _ _ N3).
Qed.

(** C8, amended.  Both tables have a non-empty header of ASCII names.
    When the rule table has at least one row and, after normalisation of
    its header, lacks one of TCODE1, TCODE2, ASK_RISK, the run ends in the
    error display with the text of the [KeyError] for the first of these
    columns, in this order, that the table lacks; the same holds for the
    access table and USER NAME, ROLE, AUTHORIZATION VALUE when the rule
    book was processed without error.  A table without rows is processed
    without error whatever its columns, and the run on two such tables
    stores empty results.  The text determines the column, and an error
    display is never a stored result. *)
Theorem missing_column_is_reported (o : set_order)
    (rule_file user_file : DataFrame) :
  ascii_header (columns rule_file) ->
  ascii_header (columns user_file) ->
  (rows rule_file <> [] ->
   (exists c, In c rule_columns /\
              ~ In c (normalize_columns (columns rule_file))) ->
   exists k, first_missing rule_columns
               (normalize_columns (columns rule_file)) = Some k /\
             In k rule_columns /\
             ~ In k (normalize_columns (columns rule_file)) /\
             main o rule_file user_file = ErrorShown (error_message k)) /\
  (forall m,
     process_rule_book (load_rule_book rule_file) = Ok m ->
     rows user_file <> [] ->
     (exists c, In c access_columns /\
                ~ In c (normalize_columns (columns user_file))) ->
     exists k, first_missing access_columns
                 (normalize_columns (columns user_file)) = Some k /\
               In k access_columns /\
               ~ In k (normalize_columns (columns user_file)) /\
               main o rule_file user_file = ErrorShown (error_message k)) /\
  (rows rule_file = [] ->
   process_rule_book (load_rule_book rule_file) = Ok []) /\
  (rows user_file = [] -> process_user_access user_file = Ok ([], [])) /\
  (rows rule_file = [] -> rows user_file = [] ->
   main o rule_file user_file
   = Analyzed {| conflict_pairs := 0; total_users := 0; total_roles := 0;
                 user_violations := []; role_violations := [] |}) /\
  (forall k1 k2, error_message k1 = error_message k2 -> k1 = k2) /\
  (forall k s, ErrorShown (error_message k) <> Analyzed s).
Proof.
  intros _ _.
  assert (Hr0 : rows rule_file = [] ->
                process_rule_book (load_rule_book rule_file) = Ok []).
  { intros E. unfold process_rule_book, load_rule_book. simpl. now rewrite E. }
  assert (Hu0 : rows user_file = [] ->
                process_user_access user_file = Ok ([], [])).
  { intros E. unfold process_user_access. now rewrite E. }
  split; [|split; [|split; [exact Hr0|split; [exact Hu0|split;
    [|split; [exact error_message_inj|discriminate]]]]]].
  - intros Hrows Hmiss.
    destruct (first_missing_exists _ _ Hmiss) as [k Hk].
    destruct (first_missing_Some _ _ _ Hk) as [Hin Hnot].
    exists k. split; [exact Hk|]. split; [exact Hin|]. split; [exact Hnot|].
    unfold main, run_analysis, process_rule_book. simpl.
    destruct (rows rule_file) as [|row l]; [congruence|].
    simpl. now rewrite (rule_row_first_missing _ _ Hk).
  - intros m Hm Hrows Hmiss.
    destruct (first_missing_exists _ _ Hmiss) as [k Hk].
    destruct (first_missing_Some _ _ _ Hk) as [Hin Hnot].
    exists k. split; [exact Hk|]. split; [exact Hin|]. split; [exact Hnot|].
    unfold main, run_analysis. rewrite Hm. cbn [bind].
    unfold process_user_access.
    destruct (rows user_file) as [|row l]; [congruence|].
    simpl. now rewrite (access_row_first_missing _ _ Hk).
  - intros Er Eu. unfold main, run_analysis.
    rewrite (Hr0 Er), (Hu0 Eu). reflexivity.
Qed.

Lemma missing_column_is_reported_witness :
  first_missing rule_columns (normalize_columns [" tcode1"; "ask_risk"])
  = Some "TCODE2" /\
  main insertion_order
    {| columns := [" tcode1"; "ask_risk"];
       rows := [[Text "FB01"; Text "High"]] |}
    (access_table [])
  = ErrorShown (error_message "TCODE2").
Proof.
  assert (Hh : ascii_header [" tcode1"; "ask_risk"])
    by (split; [discriminate|repeat constructor]).
  destruct (proj1 (missing_column_is_reported insertion_order
              {| columns := [" tcode1"; "ask_risk"];
                 rows := [[Text "FB01"; Text "High"]] |}
              (access_table []) Hh access_columns_ascii))
    as (k & Hk & _ & _ & Hmain).
  - discriminate.
  - exists "TCODE2". split; [simpl; auto|].
    simpl. intros [H|[H|[]]]; discriminate.
  - split; [reflexivity|].
    assert (E : k = "TCODE2") by (vm_compute in Hk; congruence).
    rewrite E in Hmain. exact Hmain.
Defined.

(* ================================================================== *)
(** ** Properties of the detection passes *)

Lemma role_pass_filter_same (o : set_order) (m : conflict_risk_map)
    (role : string) (tcodes : PySet.t) :
  filter (fun v => (r_ROLE v =? role)%string) (role_pass o m role tcodes)
  = role_pass o m role tcodes.
Proof.
  rewrite role_pass_eq. induction (matches o m tcodes) as [|e l IH];
    simpl; [reflexivity|].
  now rewrite String.eqb_refl, IH.
Qed.

Lemma role_pass_filter_other (o : set_order) (m : conflict_risk_map)
    (role r : string) (tcodes : PySet.t) :
  r <> role ->
  filter (fun v => (r_ROLE v =? role)%string) (role_pass o m r tcodes) = [].
Proof.
  intros Hne. rewrite role_pass_eq.
  induction (matches o m tcodes) as [|e l IH]; simpl; [reflexivity|].
  now rewrite (proj2 (String.eqb_neq r role) Hne).
Qed.

(** The records of one role, picked out of the role-level result, are
    the result of the inner loop on the set of that role. *)
Lemma role_violations_of_role (o : set_order) (urt : user_role_tcodes)
    (rtt : role_tcodes) (m : conflict_risk_map) (role : string) :
  NoDup (PyDict.keys rtt) ->
  filter (fun v => (r_ROLE v =? role)%string)
         (snd (analyze_violations o urt rtt m))
  = role_pass o m role (role_codes rtt role).
Proof.
  unfold analyze_violations. cbn [snd]. unfold role_codes.
  induction rtt as [|[r s] rtt IH]; intros Hnd.
  - simpl. now rewrite role_pass_eq, matches_small by (simpl; lia).
  - inversion Hnd as [|? ? Hnotin Hnd']; subst.
    cbn [flat_map PyDict.get]. rewrite filter_app, (IH Hnd').
    destruct (string_dec role r) as [->|Hne].
    + rewrite role_pass_filter_same.
      rewrite (proj2 (get_None string_dec r rtt) Hnotin).
      now rewrite (role_pass_eq o m r []), matches_small, app_nil_r
        by (simpl; lia).
    + rewrite role_pass_filter_other by congruence. reflexivity.
Qed.

(** C7 (deterministic order of the two codes).  In every record of the
    user-level and of the role-level pass, run on an access graph built by
    [process_user_access] with any conflict map and any iteration order of
    the sets, [TCODE_1] is strictly below [TCODE_2] in the lexicographic
    order of strings; the recorded pair is the same whichever of the two
    codes is met first, and two iteration orders give the same records. *)
Theorem codes_recorded_ascending (o o' : set_order) (user_df : DataFrame)
    (urt : user_role_tcodes) (rtt : role_tcodes) (m : conflict_risk_map) :
  process_user_access user_df = Ok (urt, rtt) ->
  (forall v, In v (fst (analyze_violations o urt rtt m)) ->
             PyStr.lt (TCODE_1 v) (TCODE_2 v)) /\
  (forall v, In v (snd (analyze_violations o urt rtt m)) ->
             PyStr.lt (r_TCODE_1 v) (r_TCODE_2 v)) /\
  (forall t1 t2, sorted_pair t1 t2 = sorted_pair t2 t1) /\
  (forall v, In v (fst (analyze_violations o urt rtt m)) ->
             In v (fst (analyze_violations o' urt rtt m))) /\
  (forall v, In v (snd (analyze_violations o urt rtt m)) ->
             In v (snd (analyze_violations o' urt rtt m))).
Proof.
  intros Hg. apply process_user_access_ok in Hg.
  pose proof Hg as (Hk & Hu & [Hrk Hr] & _). simpl in Hk, Hu, Hrk, Hr.
  split; [|split; [|split; [exact sorted_pair_comm|split]]].
  - intros v Hv. apply (user_violations_In o urt rtt m v Hk Hu) in Hv.
    rewrite user_role_pass_eq in Hv. apply in_map_iff in Hv.
    destruct Hv as ([p risk] & <- & He). simpl.
    destruct (graph_sets_ok _ (USER_NAME (user_record (USER_NAME v) (ROLE v) (p, risk)))
                (ROLE (user_record (USER_NAME v) (ROLE v) (p, risk))) Hg)
      as [[Hnd _] _].
    simpl in Hnd, He.
    destruct (matches_sound _ _ _ _ _ Hnd He) as (t1 & t2 & _ & _ & Hne & -> & _).
    now apply sorted_pair_lt.
  - intros v Hv. apply (role_violations_In o urt rtt m v Hrk) in Hv.
    rewrite role_pass_eq in Hv. apply in_map_iff in Hv.
    destruct Hv as ([p risk] & <- & He). simpl.
    destruct (graph_sets_ok _ "" (r_ROLE (role_record (r_ROLE v) (p, risk))) Hg)
      as [_ [Hnd _]].
    simpl in Hnd, He.
    destruct (matches_sound _ _ _ _ _ Hnd He) as (t1 & t2 & _ & _ & Hne & -> & _).
    now apply sorted_pair_lt.
  - intros v Hv. apply (user_violations_In o urt rtt m v Hk Hu) in Hv.
    apply (user_violations_In o' urt rtt m v Hk Hu).
    rewrite user_role_pass_eq in *. apply in_map_iff in Hv.
    destruct Hv as (e & Hv & He). apply in_map_iff. exists e.
    split; [exact Hv|].
    destruct (graph_sets_ok _ (USER_NAME v) (ROLE v) Hg) as [[Hnd _] _].
    now apply (matches_order o o').
  - intros v Hv. apply (role_violations_In o urt rtt m v Hrk) in Hv.
    apply (role_violations_In o' urt rtt m v Hrk).
    rewrite role_pass_eq in *. apply in_map_iff in Hv.
    destruct Hv as (e & Hv & He). apply in_map_iff. exists e.
    split; [exact Hv|].
    destruct (graph_sets_ok _ "" (r_ROLE v) Hg) as [_ [Hnd _]].
    now apply (matches_order o o').
Qed.

Lemma codes_recorded_ascending_witness :
  Forall (fun v => PyStr.lt (TCODE_1 v) (TCODE_2 v))
    (fst (analyze_violations reverse_order
            [("U1", [("R1", ["TX2"; "TX1"])])] [("R1", ["TX2"; "TX1"])]
            [(("TX1", "TX2"), "High")])).
Proof.
  apply Forall_forall.
  exact (proj1 (codes_recorded_ascending reverse_order insertion_order
                  (access_table [(Text "U1", Text "R1", Text "tx2");
                                 (Text "U1", Text "R1", Text "tx1")])
                  [("U1", [("R1", ["TX2"; "TX1"])])] [("R1", ["TX2"; "TX1"])]
                  [(("TX1", "TX2"), "High")] eq_refl)).
Defined.

(** C5 (aggregation independence).  In an access graph built by
    [process_user_access], when user [U1] holds through role [R] the single
    code [A], user [U2] holds through [R] the single code [B], and the pair
    of [A] and [B] has a stored risk, the role-level pass reports role [R]
    with that pair and risk, and the user-level pass reports nothing for
    [U1] with [R] nor for [U2] with [R]. *)
Theorem aggregation_independence (o : set_order) (user_df : DataFrame)
    (urt : user_role_tcodes) (rtt : role_tcodes) (m : conflict_risk_map)
    (U1 U2 R A B risk : string) :
  process_user_access user_df = Ok (urt, rtt) ->
  grants urt U1 R = [A] ->
  grants urt U2 R = [B] ->
  A <> B ->
  severity_of m A B = Some risk ->
  In (role_record R (sorted_pair A B, risk))
     (snd (analyze_violations o urt rtt m)) /\
  (forall v, In v (fst (analyze_violations o urt rtt m)) ->
             ROLE v = R -> USER_NAME v <> U1 /\ USER_NAME v <> U2).
Proof.
  intros Hg H1 H2 Hne Hs. apply process_user_access_ok in Hg.
  pose proof Hg as (Hk & Hu & [Hrk Hr] & Hincl). simpl in Hk, Hu, Hrk, Hr, Hincl.
  split.
  - apply (role_violations_In o urt rtt m _ Hrk). cbn [role_record r_ROLE].
    rewrite role_pass_eq. apply in_map. apply matches_complete; auto.
    + apply (Hincl U1 R). rewrite H1. now left.
    + apply (Hincl U2 R). rewrite H2. now left.
  - intros v Hv HR. apply (user_violations_In o urt rtt m v Hk Hu) in Hv.
    rewrite user_role_pass_eq, HR in Hv.
    split; intros HU; rewrite HU in Hv.
    + rewrite H1, matches_small in Hv by (simpl; lia). destruct Hv.
    + rewrite H2, matches_small in Hv by (simpl; lia). destruct Hv.
Qed.

Lemma aggregation_independence_witness :
  In {| r_ROLE := "R"; r_TCODE_1 := "A"; r_TCODE_2 := "B";
        r_RISK_FACTOR := "High" |}
     (snd (analyze_violations reverse_order
             [("User1", [("R", ["B"])]); ("User2", [("R", ["A"])])]
             [("R", ["B"; "A"])]
             [(("A", "B"), "High")])) /\
  fst (analyze_violations reverse_order
         [("User1", [("R", ["B"])]); ("User2", [("R", ["A"])])]
         [("R", ["B"; "A"])]
         [(("A", "B"), "High")]) = [].
Proof.
  split.
  - exact (proj1 (aggregation_independence reverse_order
             (access_table [(Text "User1", Text "R", Text "b");
                            (Text "User2", Text "R", Text "a")])
             [("User1", [("R", ["B"])]); ("User2", [("R", ["A"])])]
             [("R", ["B"; "A"])]
             [(("A", "B"), "High")]
             "User1" "User2" "R" "B" "A" "High"
             eq_refl eq_refl eq_refl ltac:(discriminate) eq_refl)).
  - reflexivity.
Defined.

(** C6 (combinatorial completeness, no false positives).  In an access
    graph built by [process_user_access]: when the set of a role consists
    of three codes [A], [B], [C] and, of their pairs, exactly those of [A]
    with [B] and of [A] with [C] have a stored risk, the records of the
    role-level pass for that role are exactly two, one for each of these
    pairs; when no two codes of the set of a role have a stored risk the
    role-level pass has no record for that role, and when no two codes
    that a user holds through a role have one the user-level pass has no
    record for that user and role. *)
Theorem combinatorial_completeness (o : set_order) (user_df : DataFrame)
    (urt : user_role_tcodes) (rtt : role_tcodes) (m : conflict_risk_map) :
  process_user_access user_df = Ok (urt, rtt) ->
  (forall R A B C rAB rAC,
      Permutation (role_codes rtt R) [A; B; C] ->
      severity_of m A B = Some rAB ->
      severity_of m A C = Some rAC ->
      severity_of m B C = None ->
      Permutation
        (filter (fun v => (r_ROLE v =? R)%string)
                (snd (analyze_violations o urt rtt m)))
        [role_record R (sorted_pair A B, rAB);
         role_record R (sorted_pair A C, rAC)]) /\
  (forall R,
      (forall a b, In a (role_codes rtt R) -> In b (role_codes rtt R) ->
                   severity_of m a b = None) ->
      filter (fun v => (r_ROLE v =? R)%string)
             (snd (analyze_violations o urt rtt m)) = []) /\
  (forall U R,
      (forall a b, In a (grants urt U R) -> In b (grants urt U R) ->
                   severity_of m a b = None) ->
      forall v, In v (fst (analyze_violations o urt rtt m)) ->
                ~ (USER_NAME v = U /\ ROLE v = R)).
Proof.
  intros Hg. apply process_user_access_ok in Hg.
  pose proof Hg as (Hk & Hu & [Hrk Hr] & _). simpl in Hk, Hu, Hrk, Hr.
  split; [|split].
  - intros R A B C rAB rAC Hp Hab Hac Hbc.
    rewrite (role_violations_of_role o urt rtt m R Hrk), role_pass_eq.
    change [role_record R (sorted_pair A B, rAB);
            role_record R (sorted_pair A C, rAC)]
      with (map (role_record R)
              [(sorted_pair A B, rAB); (sorted_pair A C, rAC)]).
    apply Permutation_map. now apply matches_three.
  - intros R Hnone.
    rewrite (role_violations_of_role o urt rtt m R Hrk), role_pass_eq.
    destruct (matches o m (role_codes rtt R)) as [|[p risk] l] eqn:E;
      [reflexivity|].
    assert (He : In (p, risk) (matches o m (role_codes rtt R)))
      by (rewrite E; now left).
    destruct (graph_sets_ok _ "" R Hg) as [_ [Hnd _]].
    destruct (matches_sound _ _ _ _ _ Hnd He) as (t1 & t2 & I1 & I2 & _ & _ & Hs).
    simpl in I1, I2. rewrite (Hnone _ _ I1 I2) in Hs. discriminate.
  - intros U R Hnone v Hv [HU HR].
    apply (user_violations_In o urt rtt m v Hk Hu) in Hv.
    rewrite user_role_pass_eq, HU, HR in Hv. apply in_map_iff in Hv.
    destruct Hv as ([p risk] & _ & He).
    destruct (graph_sets_ok _ U R Hg) as [[Hnd _] _].
    destruct (matches_sound _ _ _ _ _ Hnd He) as (t1 & t2 & I1 & I2 & _ & _ & Hs).
    simpl in I1, I2. rewrite (Hnone _ _ I1 I2) in Hs. discriminate.
Qed.

Lemma combinatorial_completeness_witness :
  Permutation
    (filter (fun v => (r_ROLE v =? "R")%string)
       (snd (analyze_violations reverse_order
               [("U1", [("R", ["C"; "A"; "B"])]); ("U2", [("S", ["B"; "C"])])]
               [("R", ["C"; "A"; "B"]); ("S", ["B"; "C"])]
               [(("A", "B"), "High"); (("A", "C"), "Low")])))
    [{| r_ROLE := "R"; r_TCODE_1 := "A"; r_TCODE_2 := "B";
        r_RISK_FACTOR := "High" |};
     {| r_ROLE := "R"; r_TCODE_1 := "A"; r_TCODE_2 := "C";
        r_RISK_FACTOR := "Low" |}] /\
  filter (fun v => (r_ROLE v =? "S")%string)
    (snd (analyze_violations reverse_order
            [("U1", [("R", ["C"; "A"; "B"])]); ("U2", [("S", ["B"; "C"])])]
            [("R", ["C"; "A"; "B"]); ("S", ["B"; "C"])]
            [(("A", "B"), "High"); (("A", "C"), "Low")])) = [].
Proof.
  pose proof (combinatorial_completeness reverse_order
                (access_table [(Text "U1", Text "R", Text "c");
                               (Text "U1", Text "R", Text "a");
                               (Text "U2", Text "S", Text "b");
                               (Text "U1", Text "R", Text "b");
                               (Text "U2", Text "S", Text "c")])
                [("U1", [("R", ["C"; "A"; "B"])]); ("U2", [("S", ["B"; "C"])])]
                [("R", ["C"; "A"; "B"]); ("S", ["B"; "C"])]
                [(("A", "B"), "High"); (("A", "C"), "Low")] eq_refl)
    as (H3 & H0 & _).
  split.
  - apply (H3 "R" "A" "B" "C" "High" "Low"); try reflexivity.
    simpl. apply Permutation_sym.
    eapply perm_trans; [apply perm_skip, perm_swap|apply perm_swap].
  - apply (H0 "S"). simpl. intros a b [<-|[<-|[]]] [<-|[<-|[]]]; reflexivity.
Defined.

(* ================================================================== *)
(** ** Canonical forms are fixed points *)

Lemma upper_char_idem (c : ascii) :
  PyStr.upper_char (PyStr.upper_char c) = PyStr.upper_char c.
Proof.
  destruct c as [[] [] [] [] [] [] [] []]; reflexivity.
Qed.

Lemma isspace_upper_char (c : ascii) :
  PyStr.isspace (PyStr.upper_char c) = PyStr.isspace c.
Proof.
  destruct c as [[] [] [] [] [] [] [] []]; reflexivity.
Qed.

Lemma upper_idem (s : string) : PyStr.upper (PyStr.upper s) = PyStr.upper s.
Proof.
  induction s as [|c s IH]; simpl; [reflexivity|].
  now rewrite upper_char_idem, IH.
Qed.

Lemma lstrip_upper (s : string) :
  PyStr.lstrip (PyStr.upper s) = PyStr.upper (PyStr.lstrip s).
Proof.
  induction s as [|c s IH]; simpl; [reflexivity|].
  rewrite isspace_upper_char. now destruct (PyStr.isspace c).
Qed.

Lemma rstrip_upper (s : string) :
  PyStr.rstrip (PyStr.upper s) = PyStr.upper (PyStr.rstrip s).
Proof.
  induction s as [|c s IH]; simpl; [reflexivity|].
  rewrite IH, isspace_upper_char.
  destruct (PyStr.rstrip s); simpl; [now destruct (PyStr.isspace c)|reflexivity].
Qed.

Lemma strip_upper (s : string) :
  PyStr.strip (PyStr.upper s) = PyStr.upper (PyStr.strip s).
Proof. unfold PyStr.strip. now rewrite lstrip_upper, rstrip_upper. Qed.

Lemma rstrip_idem (s : string) : PyStr.rstrip (PyStr.rstrip s) = PyStr.rstrip s.
Proof.
  induction s as [|c s IH]; simpl; [reflexivity|].
  destruct (PyStr.rstrip s) as [|d r] eqn:E.
  - destruct (PyStr.isspace c) eqn:Ec; simpl; [reflexivity|now rewrite Ec].
  - change (PyStr.rstrip (String c (String d r)))
      with (match PyStr.rstrip (String d r) with
            | EmptyString =>
                if PyStr.isspace c then EmptyString else String c EmptyString
            | String a b => String c (String a b)
            end).
    now rewrite IH.
Qed.

(** A string that does not start with a space still does not after
    [rstrip]. *)
Lemma lstrip_rstrip (s : string) :
  PyStr.lstrip s = s -> PyStr.lstrip (PyStr.rstrip s) = PyStr.rstrip s.
Proof.
  destruct s as [|c s]; simpl; [reflexivity|].
  destruct (PyStr.isspace c) eqn:Ec.
  - intros H. exfalso.
    assert (L : forall x, String.length (PyStr.lstrip x) <= String.length x).
    { clear. induction x as [|a x IH]; simpl; [lia|].
      destruct (PyStr.isspace a); simpl; lia. }
    specialize (L s). rewrite H in L. simpl in L. lia.
  - intros _. destruct (PyStr.rstrip s); simpl; now rewrite Ec.
Qed.

Lemma lstrip_idem (s : string) : PyStr.lstrip (PyStr.lstrip s) = PyStr.lstrip s.
Proof.
  induction s as [|c s IH]; simpl; [reflexivity|].
  destruct (PyStr.isspace c) eqn:Ec; [exact IH|]. simpl. now rewrite Ec.
Qed.

Lemma strip_idem (s : string) : PyStr.strip (PyStr.strip s) = PyStr.strip s.
Proof.
  unfold PyStr.strip.
  rewrite (lstrip_rstrip (PyStr.lstrip s) (lstrip_idem s)).
  apply rstrip_idem.
Qed.

Lemma canon_code_idem (c : cell) : canon_code (Text (canon_code c)) = canon_code c.
Proof.
  unfold canon_code. simpl. now rewrite strip_upper, strip_idem, upper_idem.
Qed.

Lemma canon_name_idem (c : cell) : canon_name (Text (canon_name c)) = canon_name c.
Proof. unfold canon_name. simpl. apply strip_idem. Qed.

Lemma normalize_columns_idem (cols : list string) :
  normalize_columns (normalize_columns cols) = normalize_columns cols.
Proof.
  unfold normalize_columns. rewrite map_map. apply map_ext. intros c.
  now rewrite strip_upper, strip_idem, upper_idem.
Qed.

(* ================================================================== *)
(** ** What the loops accumulate *)

Section Accumulate.
Context {S R : Type}.
Variable body : S -> R -> result S.
Variable P : S -> Prop.
Variable Q : R -> Prop.
Hypothesis step : forall s r s', body s r = Ok s' -> (P s' <-> P s \/ Q r).

Lemma for_each_accumulates (l : list R) (s s' : S) :
  for_each body l s = Ok s' ->
  (P s' <-> P s \/ exists r, In r l /\ Q r).
Proof.
  revert s. induction l as [|r l IH]; intros s; simpl.
  - intros [= <-]. split; [auto|]. intros [H|(r & [] & _)]. exact H.
  - destruct (body s r) as [s1|k] eqn:E; simpl; [|discriminate].
    intros Hl. rewrite (IH _ Hl), (step _ _ _ E). split.
    + intros [[H|H]|(r0 & Hin & H)]; eauto 6.
    + intros [H|(r0 & [<-|Hin] & H)]; eauto 6.
Qed.
End Accumulate.

Lemma get_app {K V : Type} (eq_dec : forall x y : K, {x = y} + {x <> y})
    (k : K) (d d' : list (K * V)) :
  PyDict.get eq_dec k (d ++ d')
  = match PyDict.get eq_dec k d with
    | Some v => Some v
    | None => PyDict.get eq_dec k d'
    end.
Proof.
  induction d as [|[k' v'] d IH]; simpl; [reflexivity|].
  now destruct (eq_dec k k').
Qed.

Lemma row_get_unique (cols : list string) (row : list cell) (col : string)
    (c c' : cell) :
  row_get cols row col = Ok c -> row_get cols row col = Ok c' -> c = c'.
Proof. congruence. Qed.

(** One step of the access loop adds what the row says, nothing else. *)
Lemma access_row_grants_step (cols : list string)
    (g g' : user_role_tcodes * role_tcodes) (row : list cell) (u r t : string) :
  access_row cols g row = Ok g' ->
  (In t (grants (fst g') u r)
   <-> In t (grants (fst g) u r) \/ access_row_grants cols row u r t).
Proof.
  unfold access_row, access_row_grants.
  destruct (row_get cols row "USER NAME") as [c1|] eqn:E1; simpl; [|discriminate].
  destruct (row_get cols row "ROLE") as [c2|] eqn:E2; simpl; [|discriminate].
  destruct (row_get cols row "AUTHORIZATION VALUE") as [c3|] eqn:E3; simpl;
    [|discriminate].
  match goal with |- (if ?b then _ else _) = _ -> _ => destruct b eqn:G end.
  - apply access_guard_true in G. destruct G as (Hu & Hr & Ht).
    intros [= <-]. cbn [fst]. rewrite grants_update. split.
    + destruct (string_dec u (PyStr.strip (str c1))) as [->|]; [|auto].
      destruct (string_dec r (PyStr.strip (str c2))) as [->|]; [|auto].
      rewrite add_In. intros [->|H]; [|auto]. right.
      exists c1, c2, c3. repeat (split; [reflexivity|]). auto.
    + intros [H|(d1 & d2 & d3 & [= <-] & [= <-] & [= <-] & <- & <- & <- & _)].
      * destruct (string_dec u (PyStr.strip (str c1))); [|exact H].
        destruct (string_dec r (PyStr.strip (str c2))); [|exact H].
        rewrite add_In. auto.
      * unfold canon_name, canon_code.
        destruct (string_dec _ _); [|congruence].
        destruct (string_dec _ _); [|congruence].
        rewrite add_In. auto.
  - intros [= <-]. split; [auto|].
    intros [H|(d1 & d2 & d3 & [= <-] & [= <-] & [= <-] & <- & <- & <- & Hu & Hr & Ht)];
      [exact H|].
    pose proof (proj2 (access_guard_true _ _ _) (conj Hu (conj Hr Ht))) as G'.
    unfold canon_name, canon_code in G'. rewrite G' in G. discriminate.
Qed.

Lemma access_row_codes_step (cols : list string)
    (g g' : user_role_tcodes * role_tcodes) (row : list cell) (r t : string) :
  access_row cols g row = Ok g' ->
  (In t (role_codes (snd g') r)
   <-> In t (role_codes (snd g) r) \/ exists u, access_row_grants cols row u r t).
Proof.
  unfold access_row, access_row_grants.
  destruct (row_get cols row "USER NAME") as [c1|] eqn:E1; simpl; [|discriminate].
  destruct (row_get cols row "ROLE") as [c2|] eqn:E2; simpl; [|discriminate].
  destruct (row_get cols row "AUTHORIZATION VALUE") as [c3|] eqn:E3; simpl;
    [|discriminate].
  match goal with |- (if ?b then _ else _) = _ -> _ => destruct b eqn:G end.
  - apply access_guard_true in G. destruct G as (Hu & Hr & Ht).
    intros [= <-]. cbn [snd]. rewrite role_codes_grant. split.
    + destruct (string_dec r (PyStr.strip (str c2))) as [->|]; [|auto].
      rewrite add_In. intros [->|H]; [|auto]. right.
      exists (PyStr.strip (str c1)), c1, c2, c3.
      repeat (split; [reflexivity|]). auto.
    + intros [H|(u & d1 & d2 & d3 & [= <-] & [= <-] & [= <-] & <- & <- & <- & _)].
      * destruct (string_dec r (PyStr.strip (str c2))); [|exact H].
        rewrite add_In. auto.
      * unfold canon_name, canon_code.
        destruct (string_dec _ _); [|congruence].
        rewrite add_In. auto.
  - intros [= <-]. split; [auto|].
    intros [H|(u & d1 & d2 & d3 & [= <-] & [= <-] & [= <-] & <- & <- & <- & Hu & Hr & Ht)];
      [exact H|].
    pose proof (proj2 (access_guard_true _ _ _) (conj Hu (conj Hr Ht))) as G'.
    unfold canon_name, canon_code in G'. rewrite G' in G. discriminate.
Qed.

(** The set of a user and role holds what the rows grant them. *)
Lemma grants_members (user_df : DataFrame)
    (urt : user_role_tcodes) (rtt : role_tcodes) (u r t : string) :
  process_user_access user_df = Ok (urt, rtt) ->
  (In t (grants urt u r) <->
   exists row, In row (rows user_df) /\
               access_row_grants (normalize_columns (columns user_df)) row u r t).
Proof.
  unfold process_user_access. intros Hg.
  pose proof (for_each_accumulates _
                (fun g => In t (grants (fst g) u r))
                (fun row => access_row_grants
                              (normalize_columns (columns user_df)) row u r t)
                (fun s r0 s' => access_row_grants_step _ s s' r0 u r t)
                _ _ _ Hg) as H.
  cbn [fst] in H. rewrite H. split; [intros [[]|H']; exact H'|auto].
Qed.

(** The aggregate of a role holds what the rows grant through it. *)
Lemma role_codes_members (user_df : DataFrame)
    (urt : user_role_tcodes) (rtt : role_tcodes) (r t : string) :
  process_user_access user_df = Ok (urt, rtt) ->
  (In t (role_codes rtt r) <->
   exists row u, In row (rows user_df) /\
                 access_row_grants (normalize_columns (columns user_df)) row u r t).
Proof.
  unfold process_user_access. intros Hg.
  pose proof (for_each_accumulates _
                (fun g => In t (role_codes (snd g) r))
                (fun row => exists u, access_row_grants
                              (normalize_columns (columns user_df)) row u r t)
                (fun s r0 s' => access_row_codes_step _ s s' r0 r t)
                _ _ _ Hg) as H.
  cbn [snd] in H. rewrite H. split.
  - intros [[]|(row & Hin & u & Hrow)]. eauto.
  - intros (row & u & Hin & Hrow). right. eauto.
Qed.

(** X1: the access graph is exactly what the accepted rows say.  For an
    access table of ASCII cells under a non-empty header of ASCII names,
    distinct after normalisation: a code is in the set of a user and role
    if and only if some row of the table grants it to that user through
    that role; it is in the aggregate of a role if and only if some row
    grants it through that role to some user, that is, if and only if
    some user holds it through the role. *)
Theorem access_graph_spec (user_df : DataFrame)
    (urt : user_role_tcodes) (rtt : role_tcodes) :
  ascii_header (columns user_df) ->
  NoDup (normalize_columns (columns user_df)) ->
  ascii_rows (rows user_df) ->
  process_user_access user_df = Ok (urt, rtt) ->
  (forall u r t,
      In t (grants urt u r) <->
      exists row, In row (rows user_df) /\
                  access_row_grants (normalize_columns (columns user_df)) row u r t) /\
  (forall r t,
      In t (role_codes rtt r) <->
      exists row u, In row (rows user_df) /\
                    access_row_grants (normalize_columns (columns user_df)) row u r t) /\
  (forall r t, In t (role_codes rtt r) <-> exists u, In t (grants urt u r)).
Proof.
  intros _ _ _ Hg.
  split; [intros u r t; now apply (grants_members user_df urt rtt)|].
  split; [intros r t; now apply (role_codes_members user_df urt rtt)|].
  intros r t. rewrite (role_codes_members user_df urt rtt r t Hg). split.
  - intros (row & u & Hin & Hrow). exists u.
    apply (grants_members user_df urt rtt u r t Hg). eauto.
  - intros (u & Hu). apply (grants_members user_df urt rtt u r t Hg) in Hu.
    destruct Hu as (row & Hin & Hrow). eauto.
Qed.

Lemma access_graph_spec_witness :
  In "FB02" (role_codes [("R", ["FB01"; "FB02"])] "R") <->
  exists u, In "FB02" (grants [("ann", [("R", ["FB01"])]);
                               ("bob", [("R", ["FB02"])])] u "R").
Proof.
  assert (Hrows : ascii_rows (rows (access_table
                      [(Text "ann", Text "R", Text "fb01");
                       (Text "bob", Text "R", Text "fb02")])))
    by (repeat constructor).
  exact (proj2 (proj2 (access_graph_spec
           (access_table [(Text "ann", Text "R", Text "fb01");
                          (Text "bob", Text "R", Text "fb02")])
           [("ann", [("R", ["FB01"])]); ("bob", [("R", ["FB02"])])]
           [("R", ["FB01"; "FB02"])]
           access_columns_ascii access_columns_NoDup Hrows eq_refl))
         "R" "FB02").
Defined.

(* ================================================================== *)
(** ** What the rule book accumulates *)

Lemma rule_row_cells (cols : list string) (m m' : conflict_risk_map)
    (row : list cell) :
  rule_row cols m row = Ok m' ->
  m' = m \/
  exists p risk,
    rule_row_names cols row p risk /\
    PyDict.get pair_dec p m = None /\ m' = m ++ [(p, risk)].
Proof.
  unfold rule_row, rule_row_names.
  destruct (row_get cols row "TCODE1") as [c1|]; simpl; [|discriminate].
  destruct (row_get cols row "TCODE2") as [c2|]; simpl; [|discriminate].
  destruct (row_get cols row "ASK_RISK") as [c3|]; simpl; [|discriminate].
  match goal with |- (if ?g then _ else _) = _ -> _ => destruct g eqn:G end.
  - apply rule_guard_true in G. destruct G as (P1 & P2 & Hne).
    unfold PyDict.mem. destruct (PyDict.get pair_dec _ m) eqn:E.
    + intros [= <-]. now left.
    + intros [= <-]. right. do 2 eexists. split; [|split; [exact E|]].
      * exists c1, c2, c3. repeat (split; [reflexivity|]).
        split; [exact P1|]. split; [exact P2|]. split; [exact Hne|].
        split; reflexivity.
      * now apply keys_set_item.
  - intros [= <-]. now left.
Qed.

(** A row that names a pair leaves the pair in the map. *)
Lemma rule_row_names_stored (cols : list string) (m m' : conflict_risk_map)
    (row : list cell) (p : string * string) (risk : string) :
  rule_row_names cols row p risk ->
  rule_row cols m row = Ok m' ->
  exists risk', PyDict.get pair_dec p m' = Some risk' /\
                (PyDict.get pair_dec p m = None -> risk' = risk).
Proof.
  intros (c1 & c2 & c3 & H1 & H2 & H3 & P1 & P2 & Hne & -> & ->).
  rewrite (rule_row_eq _ _ _ _ _ _ H1 H2 H3).
  rewrite (proj2 (rule_guard_true _ _) (conj P1 (conj P2 Hne))).
  unfold PyDict.mem.
  destruct (PyDict.get pair_dec _ m) as [r|] eqn:E; intros [= <-].
  - exists r. split; [exact E|discriminate].
  - exists (canon_risk c3). split; [|reflexivity].
    rewrite (keys_set_item _ _ _ _ E), get_app, E. simpl.
    destruct (pair_dec _ _); congruence.
Qed.

Lemma rule_row_key_step (cols : list string) (m m' : conflict_risk_map)
    (row : list cell) (p : string * string) :
  rule_row cols m row = Ok m' ->
  ((exists risk, PyDict.get pair_dec p m' = Some risk)
   <-> (exists risk, PyDict.get pair_dec p m = Some risk)
       \/ (exists risk, rule_row_names cols row p risk)).
Proof.
  intros Hrow. split.
  - intros (risk & Hget).
    destruct (rule_row_cells _ _ _ _ Hrow) as [-> | (q & r & Hq & Hnone & ->)];
      [eauto|].
    rewrite get_app in Hget.
    destruct (PyDict.get pair_dec p m) as [v|]; [eauto|]. simpl in Hget.
    destruct (pair_dec p q) as [->|]; [eauto|discriminate].
  - intros [(risk & Hget)|(risk & Hn)].
    + exists risk. eapply rule_row_keeps; eauto.
    + destruct (rule_row_names_stored _ _ _ _ _ _ Hn Hrow) as (r & Hr & _). eauto.
Qed.

Lemma for_each_rule_keeps (cols : list string) (l : list (list cell))
    (m m' : conflict_risk_map) (p : string * string) (risk : string) :
  PyDict.get pair_dec p m = Some risk ->
  for_each (rule_row cols) l m = Ok m' ->
  PyDict.get pair_dec p m' = Some risk.
Proof.
  intros Hget.
  apply (for_each_invariant _ (fun m => PyDict.get pair_dec p m = Some risk));
    [|exact Hget].
  intros s0 r s1 _ Hs0 Hr. eapply rule_row_keeps; eauto.
Qed.

Lemma row_get_In (cols : list string) (row : list cell) (col : string) (c : cell) :
  row_get cols row col = Ok c -> In col cols.
Proof.
  intros H. destruct (in_dec string_dec col cols) as [Hin|Hnot]; [exact Hin|].
  rewrite (row_get_missing _ _ _ Hnot) in H. discriminate.
Qed.

(** With the three columns in the header no row of the rule book raises. *)
Lemma rule_rows_total (cols : list string) (l : list (list cell))
    (m : conflict_risk_map) :
  In "TCODE1" cols -> In "TCODE2" cols -> In "ASK_RISK" cols ->
  exists m', for_each (rule_row cols) l m = Ok m'.
Proof.
  intros I1 I2 I3. apply for_each_total. intros s0 r _.
  destruct (row_get_found _ r _ I1) as [c1 H1].
  destruct (row_get_found _ r _ I2) as [c2 H2].
  destruct (row_get_found _ r _ I3) as [c3 H3].
  rewrite (rule_row_eq _ _ _ _ _ _ H1 H2 H3).
  destruct (_ && _); [destruct (PyDict.mem _ _ _)|]; eauto.
Qed.

Lemma access_rows_total (cols : list string) (l : list (list cell))
    (g : user_role_tcodes * role_tcodes) :
  In "USER NAME" cols -> In "ROLE" cols -> In "AUTHORIZATION VALUE" cols ->
  exists g', for_each (access_row cols) l g = Ok g'.
Proof.
  intros I1 I2 I3. apply for_each_total. intros s0 r _.
  destruct (row_get_found _ r _ I1) as [c1 H1].
  destruct (row_get_found _ r _ I2) as [c2 H2].
  destruct (row_get_found _ r _ I3) as [c3 H3].
  rewrite (access_row_eq _ _ _ _ _ _ H1 H2 H3).
  destruct (_ && _); eauto.
Qed.

(** The keys of the map are the pairs that the rows name. *)
Lemma rule_keys_members (rule_df : DataFrame) (m : conflict_risk_map)
    (p : string * string) :
  process_rule_book rule_df = Ok m ->
  ((exists risk, PyDict.get pair_dec p m = Some risk) <->
   exists row risk, In row (rows rule_df) /\
                    rule_row_names (columns rule_df) row p risk).
Proof.
  unfold process_rule_book. intros Hm.
  pose proof (for_each_accumulates _
                (fun m => exists risk, PyDict.get pair_dec p m = Some risk)
                (fun row => exists risk,
                     rule_row_names (columns rule_df) row p risk)
                (fun s r s' => rule_row_key_step _ s s' r p)
                _ _ _ Hm) as H.
  rewrite H. split.
  - intros [(risk & Hget)|(row & Hin & risk & Hn)]; [discriminate|eauto].
  - intros (row & risk & Hin & Hn). right. eauto.
Qed.

(** Every entry of the map is what some row says. *)
Lemma rule_entries_members (rule_df : DataFrame) (m : conflict_risk_map)
    (p : string * string) (risk : string) :
  process_rule_book rule_df = Ok m ->
  In (p, risk) m ->
  exists row, In row (rows rule_df) /\
              rule_row_names (columns rule_df) row p risk.
Proof.
  unfold process_rule_book. intros Hm. revert p risk. revert Hm.
  apply (for_each_invariant _
           (fun m => forall p risk, In (p, risk) m ->
              exists row, In row (rows rule_df) /\
                          rule_row_names (columns rule_df) row p risk)).
  - intros s0 r s1 Hin Hs0 Hr p risk He.
    destruct (rule_row_cells _ _ _ _ Hr) as [-> | (q & rk & Hq & _ & ->)];
      [auto|].
    apply in_app_iff in He. destruct He as [He|[[= <- <-]|[]]]; eauto.
  - intros p risk [].
Qed.

(** X2: the conflict map is exactly what the valid rows say.  For a rule
    book of ASCII cells whose header has no name twice: a sorted pair is a
    key of the map if and only if some row of the rule book names it, and
    every stored label is the label of a row that names its pair. *)
Theorem rule_index_spec (rule_df : DataFrame) (m : conflict_risk_map) :
  NoDup (columns rule_df) ->
  ascii_rows (rows rule_df) ->
  process_rule_book rule_df = Ok m ->
  (forall p,
      (exists risk, PyDict.get pair_dec p m = Some risk) <->
      exists row risk, In row (rows rule_df) /\
                       rule_row_names (columns rule_df) row p risk) /\
  (forall p risk,
      In (p, risk) m ->
      exists row, In row (rows rule_df) /\
                  rule_row_names (columns rule_df) row p risk).
Proof.
  intros _ _ Hm. split.
  - intros p. now apply rule_keys_members.
  - intros p risk. now apply rule_entries_members.
Qed.

Lemma rule_index_spec_witness :
  (exists risk,
      PyDict.get pair_dec ("FB01", "FB02") [(("FB01", "FB02"), "High")]
      = Some risk) <->
  exists row risk,
    In row [[Text "fb02 "; Text "FB01"; Text " High"]] /\
    rule_row_names rule_columns row ("FB01", "FB02") risk.
Proof.
  assert (Hrows : ascii_rows [[Text "fb02 "; Text "FB01"; Text " High"]])
    by (repeat constructor).
  exact (proj1 (rule_index_spec
           (rule_table [(Text "fb02 ", Text "FB01", Text " High")])
           [(("FB01", "FB02"), "High")]
           rule_columns_NoDup Hrows eq_refl) ("FB01", "FB02")).
Defined.

(** X3: the first row that names a pair decides its label, wherever it
    stands.  In a rule book whose header has no name twice, when the rows
    before a row, all of ASCII cells like the row itself, leave the pair
    that the row names out of the map, the map of the whole table gives
    the pair the label of that row, whatever rows follow. *)
Theorem first_occurrence_wins (cols : list string)
    (before after : list (list cell)) (row : list cell)
    (m0 : conflict_risk_map) (p : string * string) (risk : string) :
  NoDup cols ->
  ascii_rows before -> Forall ascii_cell row ->
  process_rule_book {| columns := cols; rows := before |} = Ok m0 ->
  PyDict.get pair_dec p m0 = None ->
  rule_row_names cols row p risk ->
  exists m,
    process_rule_book {| columns := cols; rows := before ++ row :: after |}
    = Ok m /\
    PyDict.get pair_dec p m = Some risk.
Proof.
  unfold process_rule_book. simpl. intros _ _ _ H0 Hnone Hn.
  assert (Hcols : In "TCODE1" cols /\ In "TCODE2" cols /\ In "ASK_RISK" cols).
  { destruct Hn as (c1 & c2 & c3 & H1 & H2 & H3 & _).
    split; [|split]; eapply row_get_In; eassumption. }
  destruct Hcols as (I1 & I2 & I3).
  destruct (rule_rows_total cols [row] m0 I1 I2 I3) as [m1 H1].
  simpl in H1. destruct (rule_row cols m0 row) as [m1'|] eqn:E; [|discriminate].
  simpl in H1. injection H1 as ->.
  destruct (rule_row_names_stored _ _ _ _ _ _ Hn E) as (r & Hr & Hrisk).
  rewrite (Hrisk Hnone) in Hr.
  destruct (rule_rows_total cols after m1 I1 I2 I3) as [m Hm].
  exists m. split.
  - rewrite for_each_app, H0. simpl. rewrite E. simpl. exact Hm.
  - eapply for_each_rule_keeps; eauto.
Qed.

Lemma first_occurrence_wins_witness :
  exists m,
    process_rule_book
      {| columns := rule_columns;
         rows := [[Text "A"; Text "A"; Text "Low"]]
                 ++ [Text "fb02"; Text "fb01"; Text "High"]
                 :: [[Text "FB01"; Text "FB02"; Text "Low"]] |} = Ok m /\
    PyDict.get pair_dec ("FB01", "FB02") m = Some "High".
Proof.
  apply (first_occurrence_wins rule_columns
           [[Text "A"; Text "A"; Text "Low"]]
           [[Text "FB01"; Text "FB02"; Text "Low"]]
           [Text "fb02"; Text "fb01"; Text "High"] []).
  - exact rule_columns_NoDup.
  - repeat constructor.
  - repeat constructor.
  - reflexivity.
  - reflexivity.
  - exists (Text "fb02"), (Text "fb01"), (Text "High").
    repeat (split; [reflexivity|]).
    split; [split; discriminate|]. split; [split; discriminate|].
    split; [discriminate|]. split; reflexivity.
Defined.

(* ================================================================== *)
(** ** Repeated rows, swapped columns, sizes *)

Section Repeat.
Context {S R : Type}.
Variable body : S -> R -> result S.


Lemma for_each_measure (mu : S -> nat) (l : list R) (s s' : S) :
  (forall s0 r s1, body s0 r = Ok s1 -> mu s1 <= mu s0 + 1) ->
  for_each body l s = Ok s' -> mu s' <= mu s + List.length l.
Proof.
  intros Hstep. revert s. induction l as [|r l IH]; intros s; simpl.
  - intros [= <-]. lia.
  - destruct (body s r) as [s1|] eqn:E; simpl; [|discriminate].
    intros Hl. specialize (IH _ Hl). specialize (Hstep _ _ _ E). lia.
Qed.
End Repeat.







Lemma rule_guard_sym (t1 t2 : string) :
  PyStr.truthy t1 && PyStr.truthy t2
  && negb (t1 =? "NAN")%string && negb (t2 =? "NAN")%string
  && negb (t1 =? t2)%string
  = PyStr.truthy t2 && PyStr.truthy t1
    && negb (t2 =? "NAN")%string && negb (t1 =? "NAN")%string
    && negb (t2 =? t1)%string.
Proof.
  rewrite (String.eqb_sym t2 t1).
  destruct (PyStr.truthy t1), (PyStr.truthy t2), (t1 =? "NAN")%string,
    (t2 =? "NAN")%string; reflexivity.
Qed.

(** X6: the two code columns of the rule book are interchangeable:
    exchanging the two code cells in every row gives the same conflict
    map, entry for entry. *)
Theorem rule_columns_interchangeable (l : list (cell * cell * cell)) :
  process_rule_book (rule_table (map (fun '(a, b, s) => (b, a, s)) l))
  = process_rule_book (rule_table l).
Proof.
  unfold process_rule_book. simpl. generalize (@nil ((string * string) * string)).
  induction l as [|[[a b] s] l IH]; intros m; simpl; [reflexivity|].
  destruct (rule_table_get a b s) as (G1 & G2 & G3).
  destruct (rule_table_get b a s) as (K1 & K2 & K3).
  simpl in G1, G2, G3, K1, K2, K3.
  rewrite (rule_row_eq _ _ _ _ _ _ G1 G2 G3), (rule_row_eq _ _ _ _ _ _ K1 K2 K3).
  rewrite (rule_guard_sym (canon_code b) (canon_code a)).
  rewrite (sorted_pair_comm (canon_code b) (canon_code a)).
  destruct (_ && _); [destruct (PyDict.mem _ _ _)|]; simpl; apply IH.
Qed.

(** X7: the summary counts are bounded by the sizes of the tables: there
    are at most as many conflict pairs as rule rows, and at most as many
    users, and as many roles, as access rows. *)
Theorem summary_counts_bounded (o : set_order) (rule_file user_file : DataFrame)
    (s : session) :
  main o rule_file user_file = Analyzed s ->
  conflict_pairs s <= List.length (rows rule_file) /\
  total_users s <= List.length (rows user_file) /\
  total_roles s <= List.length (rows user_file).
Proof.
  intros Hmain. apply main_inv, run_analysis_inv in Hmain.
  destruct Hmain as (m & g & Hm & Hg & ->). simpl.
  assert (Hupd : forall (V : Type) k (f : V -> V) dflt (d : list (string * V)),
             List.length (PyDict.update string_dec k f dflt d) <= List.length d + 1).
  { intros V k f dflt d.
    rewrite <- (length_map fst (PyDict.update string_dec k f dflt d)).
    change (map fst (PyDict.update string_dec k f dflt d))
      with (PyDict.keys (PyDict.update string_dec k f dflt d)).
    rewrite keys_update. unfold PyDict.keys.
    destruct (in_dec string_dec k (map fst d));
      rewrite ?length_app, !length_map; simpl; lia. }
  split; [|split].
  - apply (for_each_measure _ (@List.length _) _ _ _) in Hm; [exact Hm|].
    intros s0 r s1 Hr.
    destruct (rule_row_cases _ _ _ _ Hr) as [-> | (? & ? & ? & _ & _ & _ & _ & ->)];
      rewrite ?length_app; simpl; lia.
  - apply (for_each_measure _ (fun g => List.length (fst g)) _ _ _) in Hg;
      [exact Hg|].
    intros s0 r s1 Hr.
    destruct (access_row_cases _ _ _ _ Hr) as [-> | (u & ro & t & _ & _ & _ & ->)];
      [lia|]. simpl. apply Hupd.
  - apply (for_each_measure _ (fun g => List.length (snd g)) _ _ _) in Hg;
      [exact Hg|].
    intros s0 r s1 Hr.
    destruct (access_row_cases _ _ _ _ Hr) as [-> | (u & ro & t & _ & _ & _ & ->)];
      [lia|]. simpl. apply Hupd.
Qed.

Lemma summary_counts_bounded_witness :
  exists s,
    main insertion_order
      (rule_table [(Text "A", Text "B", Text "High");
                   (Text "b", Text "a", Text "Low")])
      (access_table [(Text "U", Text "R1", Text "A");
                     (Text "U", Text "R2", Text "B");
                     (Text "U", NaN, NaN)])
    = Analyzed s /\
    conflict_pairs s <= 2 /\ total_users s <= 3 /\ total_roles s <= 3.
Proof.
  eexists. split; [reflexivity|].
  exact (summary_counts_bounded insertion_order
           (rule_table [(Text "A", Text "B", Text "High");
                        (Text "b", Text "a", Text "Low")])
           (access_table [(Text "U", Text "R1", Text "A");
                          (Text "U", Text "R2", Text "B");
                          (Text "U", NaN, NaN)])
           _ eq_refl).
Defined.

(* ================================================================== *)
(** ** What the passes report *)

Lemma user_record_eta (v : user_violation) :
  user_record (USER_NAME v) (ROLE v) ((TCODE_1 v, TCODE_2 v), RISK_FACTOR v) = v.
Proof. now destruct v. Qed.

Lemma role_record_eta (v : role_violation) :
  role_record (r_ROLE v) ((r_TCODE_1 v, r_TCODE_2 v), r_RISK_FACTOR v) = v.
Proof. now destruct v. Qed.

Lemma matches_iff (o : set_order) (m : conflict_risk_map) (tcodes : PySet.t)
    (p : string * string) (risk : string) :
  NoDup tcodes ->
  In (p, risk) (matches o m tcodes) <->
  exists t1 t2,
    In t1 tcodes /\ In t2 tcodes /\ t1 <> t2 /\
    p = sorted_pair t1 t2 /\ severity_of m t1 t2 = Some risk.
Proof.
  intros Hnd. split; [now apply matches_sound|].
  intros (t1 & t2 & I1 & I2 & Hne & -> & Hs). now apply matches_complete.
Qed.

(** The user-level records are the conflicts among the codes that a
    user holds through a role. *)
Lemma user_violations_members (o : set_order) (user_df : DataFrame)
    (urt : user_role_tcodes) (rtt : role_tcodes) (m : conflict_risk_map)
    (v : user_violation) :
  process_user_access user_df = Ok (urt, rtt) ->
  (In v (fst (analyze_violations o urt rtt m)) <->
   exists t1 t2,
     In t1 (grants urt (USER_NAME v) (ROLE v)) /\
     In t2 (grants urt (USER_NAME v) (ROLE v)) /\ t1 <> t2 /\
     (TCODE_1 v, TCODE_2 v) = sorted_pair t1 t2 /\
     severity_of m t1 t2 = Some (RISK_FACTOR v)).
Proof.
  intros Hg. apply process_user_access_ok in Hg.
  pose proof Hg as (Hk & Hu & _). simpl in Hk, Hu.
  rewrite (user_violations_In o urt rtt m v Hk Hu).
  rewrite user_role_pass_eq.
  destruct (graph_sets_ok _ (USER_NAME v) (ROLE v) Hg) as [[Hnd _] _].
  simpl in Hnd.
  rewrite <- (matches_iff o m _ (TCODE_1 v, TCODE_2 v) (RISK_FACTOR v) Hnd).
  split.
  - intros Hin. apply in_map_iff in Hin. destruct Hin as ([[a b] r] & <- & He).
    exact He.
  - intros He. rewrite <- (user_record_eta v) at 1. now apply in_map.
Qed.

(** The role-level records are the conflicts among the codes of a role. *)
Lemma role_violations_members (o : set_order) (user_df : DataFrame)
    (urt : user_role_tcodes) (rtt : role_tcodes) (m : conflict_risk_map)
    (v : role_violation) :
  process_user_access user_df = Ok (urt, rtt) ->
  (In v (snd (analyze_violations o urt rtt m)) <->
   exists t1 t2,
     In t1 (role_codes rtt (r_ROLE v)) /\
     In t2 (role_codes rtt (r_ROLE v)) /\ t1 <> t2 /\
     (r_TCODE_1 v, r_TCODE_2 v) = sorted_pair t1 t2 /\
     severity_of m t1 t2 = Some (r_RISK_FACTOR v)).
Proof.
  intros Hg. apply process_user_access_ok in Hg.
  pose proof Hg as (_ & _ & [Hrk _] & _). simpl in Hrk.
  rewrite (role_violations_In o urt rtt m v Hrk).
  rewrite role_pass_eq.
  destruct (graph_sets_ok _ "" (r_ROLE v) Hg) as [_ [Hnd _]].
  simpl in Hnd.
  rewrite <- (matches_iff o m _ (r_TCODE_1 v, r_TCODE_2 v) (r_RISK_FACTOR v) Hnd).
  split.
  - intros Hin. apply in_map_iff in Hin. destruct Hin as ([[a b] r] & <- & He).
    exact He.
  - intros He. rewrite <- (role_record_eta v) at 1. now apply in_map.
Qed.

(** X8: the passes report exactly the conflicts.  For an access graph
    built by [process_user_access], any conflict map and any iteration
    order, a record is in the user-level result if and only if its two
    codes are the sorted form of two distinct codes that its user holds
    through its role and its risk is the one stored for them; likewise
    for the role-level result and the codes of the role. *)
Theorem violations_spec (o : set_order) (user_df : DataFrame)
    (urt : user_role_tcodes) (rtt : role_tcodes) (m : conflict_risk_map) :
  process_user_access user_df = Ok (urt, rtt) ->
  (forall v,
      In v (fst (analyze_violations o urt rtt m)) <->
      exists t1 t2,
        In t1 (grants urt (USER_NAME v) (ROLE v)) /\
        In t2 (grants urt (USER_NAME v) (ROLE v)) /\ t1 <> t2 /\
        (TCODE_1 v, TCODE_2 v) = sorted_pair t1 t2 /\
        severity_of m t1 t2 = Some (RISK_FACTOR v)) /\
  (forall v,
      In v (snd (analyze_violations o urt rtt m)) <->
      exists t1 t2,
        In t1 (role_codes rtt (r_ROLE v)) /\
        In t2 (role_codes rtt (r_ROLE v)) /\ t1 <> t2 /\
        (r_TCODE_1 v, r_TCODE_2 v) = sorted_pair t1 t2 /\
        severity_of m t1 t2 = Some (r_RISK_FACTOR v)).
Proof.
  intros Hg. split; intros v.
  - now apply (user_violations_members o user_df).
  - now apply (role_violations_members o user_df).
Qed.

Lemma violations_spec_witness :
  In {| r_ROLE := "R"; r_TCODE_1 := "A"; r_TCODE_2 := "B";
        r_RISK_FACTOR := "High" |}
     (snd (analyze_violations reverse_order
             [("U", [("R", ["B"; "A"])])] [("R", ["B"; "A"])]
             [(("A", "B"), "High")])).
Proof.
  apply (proj2 (violations_spec reverse_order
                  (access_table [(Text "U", Text "R", Text "b");
                                 (Text "U", Text "R", Text "a")])
                  [("U", [("R", ["B"; "A"])])] [("R", ["B"; "A"])]
                  [(("A", "B"), "High")] eq_refl)).
  exists "B", "A". simpl. repeat split; auto. discriminate.
Defined.

(** X9: every user-level violation is also a role-level violation: when a
    user holds, through a role, both codes of a conflict, the role-level
    result has a record for that role with the same codes and risk. *)
Theorem user_violation_is_role_violation (o : set_order) (user_df : DataFrame)
    (urt : user_role_tcodes) (rtt : role_tcodes) (m : conflict_risk_map)
    (v : user_violation) :
  process_user_access user_df = Ok (urt, rtt) ->
  In v (fst (analyze_violations o urt rtt m)) ->
  In {| r_ROLE := ROLE v; r_TCODE_1 := TCODE_1 v; r_TCODE_2 := TCODE_2 v;
        r_RISK_FACTOR := RISK_FACTOR v |}
     (snd (analyze_violations o urt rtt m)).
Proof.
  intros Hg Hv.
  apply (user_violations_members o user_df urt rtt m v Hg) in Hv.
  destruct Hv as (t1 & t2 & I1 & I2 & Hne & Hp & Hs).
  apply (role_violations_members o user_df urt rtt m _ Hg). simpl.
  exists t1, t2.
  apply process_user_access_ok in Hg. destruct Hg as (_ & _ & _ & Hincl).
  simpl in Hincl. repeat split; auto; now apply (Hincl (USER_NAME v)).
Qed.

Lemma user_violation_is_role_violation_witness :
  In {| r_ROLE := "R"; r_TCODE_1 := "A"; r_TCODE_2 := "B";
        r_RISK_FACTOR := "High" |}
     (snd (analyze_violations insertion_order
             [("U", [("R", ["B"; "A"])]); ("V", [("R", ["C"])])]
             [("R", ["B"; "A"; "C"])]
             [(("A", "B"), "High")])).
Proof.
  apply (user_violation_is_role_violation insertion_order
           (access_table [(Text "U", Text "R", Text "b");
                          (Text "U", Text "R", Text "a");
                          (Text "V", Text "R", Text "c")])
           [("U", [("R", ["B"; "A"])]); ("V", [("R", ["C"])])]
           [("R", ["B"; "A"; "C"])]
           [(("A", "B"), "High")]
           {| USER_NAME := "U"; ROLE := "R"; TCODE_1 := "A"; TCODE_2 := "B";
              RISK_FACTOR := "High" |} eq_refl).
  simpl. now left.
Defined.

(* ================================================================== *)
(** ** Counting the pairs *)

Lemma combinations2_length (l : list string) :
  2 * List.length (combinations2 l) = List.length l * (List.length l - 1).
Proof.
  induction l as [|x l IH]; simpl; [reflexivity|].
  rewrite length_app, length_map. destruct l as [|y l]; simpl in *; [reflexivity|].
  nia.
Qed.

Lemma matches_length (o : set_order) (m : conflict_risk_map) (tcodes : PySet.t) :
  2 * List.length (matches o m tcodes)
  <= List.length tcodes * (List.length tcodes - 1).
Proof.
  rewrite <- (Permutation_length (iter_perm o tcodes)).
  rewrite <- combinations2_length. unfold matches.
  induction (combinations2 (o tcodes)) as [|[t1 t2] l IH]; simpl; [lia|].
  rewrite length_app.
  destruct (PyDict.get pair_dec (sorted_pair t1 t2) m); simpl; lia.
Qed.

(** X10: a set of [k] codes gives at most [k (k - 1) / 2] records.  The
    records of a role in the role-level result, and the records that the
    user-level loop produces for one user and role, are at most as many
    as the unordered pairs of codes of the set; a set of fewer than two
    codes gives none. *)
Theorem violation_count_bounded (o : set_order) (user_df : DataFrame)
    (urt : user_role_tcodes) (rtt : role_tcodes) (m : conflict_risk_map) :
  process_user_access user_df = Ok (urt, rtt) ->
  (forall R,
      2 * List.length (filter (fun v => (r_ROLE v =? R)%string)
                              (snd (analyze_violations o urt rtt m)))
      <= List.length (role_codes rtt R) * (List.length (role_codes rtt R) - 1)) /\
  (forall U R,
      2 * List.length (user_role_pass o m U R (grants urt U R))
      <= List.length (grants urt U R) * (List.length (grants urt U R) - 1)).
Proof.
  intros Hg. apply process_user_access_ok in Hg.
  destruct Hg as (_ & _ & [Hrk _] & _). simpl in Hrk. split.
  - intros R. rewrite (role_violations_of_role o urt rtt m R Hrk), role_pass_eq.
    rewrite length_map. apply matches_length.
  - intros U R. rewrite user_role_pass_eq, length_map. apply matches_length.
Qed.

Lemma violation_count_bounded_witness :
  2 * List.length
        (filter (fun v => (r_ROLE v =? "R")%string)
           (snd (analyze_violations insertion_order
                   [("U", [("R", ["A"; "B"; "C"])])] [("R", ["A"; "B"; "C"])]
                   [(("A", "B"), "High"); (("B", "C"), "Low")])))
  <= 3 * (3 - 1).
Proof.
  exact (proj1 (violation_count_bounded insertion_order
                  (access_table [(Text "U", Text "R", Text "a");
                                 (Text "U", Text "R", Text "b");
                                 (Text "U", Text "R", Text "c")])
                  [("U", [("R", ["A"; "B"; "C"])])] [("R", ["A"; "B"; "C"])]
                  [(("A", "B"), "High"); (("B", "C"), "Low")] eq_refl) "R").
Defined.

(* ================================================================== *)
(** ** No record twice *)

Lemma sorted_pair_inj_r (x y y' : string) :
  y <> x -> y' <> x -> sorted_pair x y = sorted_pair x y' -> y = y'.
Proof.
  intros Hy Hy'.
  destruct (sorted_pair_cases x y) as [-> | ->];
    destruct (sorted_pair_cases x y') as [-> | ->]; congruence.
Qed.

Lemma sorted_pair_has (x y a b : string) :
  sorted_pair a b = sorted_pair x y -> x = a \/ x = b.
Proof.
  destruct (sorted_pair_cases x y) as [-> | ->];
    destruct (sorted_pair_cases a b) as [-> | ->]; intros [= -> ->]; auto.
Qed.

(** The pairs enumerated from a duplicate-free pool are distinct even as
    unordered pairs. *)
Lemma combinations2_sorted_NoDup (l : list string) :
  NoDup l ->
  NoDup (map (fun '(a, b) => sorted_pair a b) (combinations2 l)).
Proof.
  induction l as [|x l IH]; simpl; [constructor|].
  intros Hnd. inversion Hnd as [|? ? Hx Hl]; subst.
  rewrite map_app, map_map. apply NoDup_app.
  - clear IH Hnd. induction l as [|y l IH]; simpl; [constructor|].
    inversion Hl as [|? ? Hy Hl']; subst. constructor.
    + rewrite in_map_iff. intros (y' & E & Hin).
      apply sorted_pair_inj_r in E.
      * subst. contradiction.
      * intros ->. apply Hx. now right.
      * intros ->. apply Hx. now left.
    + apply IH; [|exact Hl']. intros H. apply Hx. now right.
  - now apply IH.
  - intros p H1 H2. apply in_map_iff in H1. destruct H1 as (y & <- & Hy).
    apply in_map_iff in H2. destruct H2 as ([a b] & E & Hab).
    destruct (combinations2_In _ _ _ Hab) as [Ha Hb].
    destruct (sorted_pair_has _ _ _ _ E) as [-> | ->]; contradiction.
Qed.

Lemma matches_keys_sub (m : conflict_risk_map) (pool : list (string * string))
    (p : string * string) :
  In p (map fst
          (flat_map
             (fun '(t1, t2) =>
                match PyDict.get pair_dec (sorted_pair t1 t2) m with
                | Some risk => [(sorted_pair t1 t2, risk)]
                | None => []
                end) pool)) ->
  In p (map (fun '(a, b) => sorted_pair a b) pool).
Proof.
  induction pool as [|[t1 t2] pool IH]; simpl; [tauto|].
  rewrite map_app, in_app_iff.
  destruct (PyDict.get pair_dec (sorted_pair t1 t2) m); simpl; tauto.
Qed.

Lemma matches_NoDup (o : set_order) (m : conflict_risk_map) (tcodes : PySet.t) :
  NoDup tcodes -> NoDup (map fst (matches o m tcodes)).
Proof.
  intros Hnd.
  assert (Hp : NoDup (o tcodes)).
  { eapply Permutation_NoDup; [apply Permutation_sym, iter_perm|exact Hnd]. }
  apply combinations2_sorted_NoDup in Hp. unfold matches.
  induction (combinations2 (o tcodes)) as [|[t1 t2] pool IH]; simpl;
    [constructor|].
  simpl in Hp. inversion Hp as [|? ? Hnotin Hp']; subst.
  rewrite map_app.
  destruct (PyDict.get pair_dec (sorted_pair t1 t2) m); simpl; [|auto].
  constructor; [|auto]. intros H. apply Hnotin. now apply (matches_keys_sub m).
Qed.

Lemma NoDup_map_fst {A B C : Type} (f : A * B -> C) (l : list (A * B)) :
  (forall e e', f e = f e' -> fst e = fst e') ->
  NoDup (map fst l) -> NoDup (map f l).
Proof.
  intros Hf. induction l as [|e l IH]; simpl; [constructor|].
  intros Hnd. inversion Hnd as [|? ? Hnotin Hnd']; subst. constructor; [|auto].
  rewrite in_map_iff. intros (e' & E & Hin). apply Hnotin.
  rewrite <- (Hf _ _ E). now apply in_map.
Qed.

(** Results of a loop over a dictionary without repeated keys, each
    tagged by the key of its entry, have no duplicates. *)
Lemma flat_map_NoDup {K V B : Type} (f : K * V -> list B) (tag : B -> K)
    (d : list (K * V)) :
  (forall e b, In b (f e) -> tag b = fst e) ->
  (forall e, In e d -> NoDup (f e)) ->
  NoDup (map fst d) -> NoDup (flat_map f d).
Proof.
  intros Htag. induction d as [|e d IH]; simpl; [constructor|].
  intros Hf Hnd. inversion Hnd as [|? ? Hnotin Hnd']; subst.
  apply NoDup_app; [apply Hf; now left|apply IH; auto|].
  intros b H1 H2. apply in_flat_map in H2. destruct H2 as (e' & He' & H2).
  apply Hnotin. rewrite <- (Htag _ _ H1), (Htag _ _ H2). now apply in_map.
Qed.

(** X11: no violation is reported twice.  For an access graph built by
    [process_user_access], the user-level result and the role-level
    result have no duplicate record. *)
Theorem violations_NoDup (o : set_order) (user_df : DataFrame)
    (urt : user_role_tcodes) (rtt : role_tcodes) (m : conflict_risk_map) :
  process_user_access user_df = Ok (urt, rtt) ->
  NoDup (fst (analyze_violations o urt rtt m)) /\
  NoDup (snd (analyze_violations o urt rtt m)).
Proof.
  intros Hg. apply process_user_access_ok in Hg.
  destruct Hg as (Hk & Hu & [Hrk Hr] & _). simpl in Hk, Hu, Hrk, Hr.
  unfold analyze_violations. cbn [fst snd]. split.
  - apply (flat_map_NoDup _ USER_NAME); [| |exact Hk].
    + intros [user roles] b Hb. apply in_flat_map in Hb.
      destruct Hb as ([role tcodes] & _ & Hb).
      rewrite user_role_pass_eq in Hb. apply in_map_iff in Hb.
      now destruct Hb as (e & <- & _).
    + intros [user roles] He. rewrite Forall_forall in Hu.
      destruct (Hu _ He) as [Hrk' Hs]. simpl in Hrk', Hs.
      apply (flat_map_NoDup _ ROLE); [| |exact Hrk'].
      * intros [role tcodes] b Hb. rewrite user_role_pass_eq in Hb.
        apply in_map_iff in Hb. now destruct Hb as (e & <- & _).
      * intros [role tcodes] He'. rewrite Forall_forall in Hs.
        destruct (Hs _ He') as [Hnd _]. simpl in Hnd.
        rewrite user_role_pass_eq. apply NoDup_map_fst.
        -- intros [[a b] r] [[a' b'] r'] E. unfold user_record in E.
           simpl in *. congruence.
        -- now apply matches_NoDup.
  - apply (flat_map_NoDup _ r_ROLE); [| |exact Hrk].
    + intros [role tcodes] b Hb. rewrite role_pass_eq in Hb.
      apply in_map_iff in Hb. now destruct Hb as (e & <- & _).
    + intros [role tcodes] He. rewrite Forall_forall in Hr.
      destruct (Hr _ He) as [Hnd _]. simpl in Hnd.
      rewrite role_pass_eq. apply NoDup_map_fst.
      * intros [[a b] r] [[a' b'] r'] E. unfold role_record in E.
        simpl in *. congruence.
      * now apply matches_NoDup.
Qed.

Lemma violations_NoDup_witness :
  NoDup (snd (analyze_violations reverse_order
                [("U", [("R", ["A"; "B"; "C"])])] [("R", ["A"; "B"; "C"])]
                [(("A", "B"), "High"); (("B", "C"), "Low")])).
Proof.
  exact (proj2 (violations_NoDup reverse_order
                  (access_table [(Text "U", Text "R", Text "a");
                                 (Text "U", Text "R", Text "b");
                                 (Text "U", Text "R", Text "a");
                                 (Text "U", Text "R", Text "c")])
                  [("U", [("R", ["A"; "B"; "C"])])] [("R", ["A"; "B"; "C"])]
                  [(("A", "B"), "High"); (("B", "C"), "Low")] eq_refl)).
Defined.

(* ================================================================== *)
(** ** When the run completes *)

Lemma incl_or_missing (required cols : list string) :
  incl required cols \/ exists c, In c required /\ ~ In c cols.
Proof.
  induction required as [|c required IH].
  - left. intros x [].
  - destruct (in_dec string_dec c cols) as [Hin|Hnot].
    + destruct IH as [IH|(c' & Hc' & Hmiss)].
      * left. intros x [<-|Hx]; auto.
      * right. exists c'. split; [now right|exact Hmiss].
    + right. exists c. split; [now left|exact Hnot].
Qed.

Lemma process_rule_book_total (rule_df : DataFrame) :
  rows rule_df = [] \/ incl rule_columns (columns rule_df) ->
  exists m, process_rule_book rule_df = Ok m.
Proof.
  unfold process_rule_book. intros [-> | Hincl]; [now exists []|].
  apply rule_rows_total; apply Hincl; simpl; auto.
Qed.

Lemma process_user_access_total (user_df : DataFrame) :
  rows user_df = [] \/
  incl access_columns (normalize_columns (columns user_df)) ->
  exists g, process_user_access user_df = Ok g.
Proof.
  unfold process_user_access. intros [-> | Hincl]; [now exists ([], [])|].
  apply access_rows_total; apply Hincl; simpl; auto.
Qed.

(** X12: when the run completes.  For two tables with a non-empty header
    of ASCII names, the run stores results if and only if each of the two
    tables either has no row or has, after normalisation of its header,
    all three columns that its loop reads; otherwise it ends in the error
    display. *)
Theorem run_completes_iff (o : set_order) (rule_file user_file : DataFrame) :
  ascii_header (columns rule_file) ->
  ascii_header (columns user_file) ->
  (exists s, main o rule_file user_file = Analyzed s) <->
  (rows rule_file = [] \/
   incl rule_columns (normalize_columns (columns rule_file))) /\
  (rows user_file = [] \/
   incl access_columns (normalize_columns (columns user_file))).
Proof.
  intros _ _. split.
  - intros (s & Hmain). apply main_inv, run_analysis_inv in Hmain.
    destruct Hmain as (m & g & Hm & Hg & _). split.
    + destruct (rows rule_file) as [|row l] eqn:Erows; [now left|]. right.
      destruct (incl_or_missing rule_columns
                  (normalize_columns (columns rule_file))) as [H|Hmiss];
        [exact H|].
      destruct (rule_row_missing _ Hmiss) as (k & _ & _ & Hraise).
      unfold process_rule_book in Hm. simpl in Hm.
      rewrite Erows in Hm. simpl in Hm. rewrite Hraise in Hm. discriminate.
    + destruct (rows user_file) as [|row l] eqn:Erows; [now left|]. right.
      destruct (incl_or_missing access_columns
                  (normalize_columns (columns user_file))) as [H|Hmiss];
        [exact H|].
      destruct (access_row_missing _ Hmiss) as (k & _ & _ & Hraise).
      unfold process_user_access in Hg. rewrite Erows in Hg. simpl in Hg.
      rewrite Hraise in Hg. discriminate.
  - intros [Hr Hu].
    destruct (process_rule_book_total (load_rule_book rule_file) Hr) as [m Hm].
    destruct (process_user_access_total user_file Hu) as [g Hg].
    unfold main, run_analysis. rewrite Hm, Hg. simpl. eauto.
Qed.

(** X13: headers are normalised once and for all.  Normalising a header
    that is already normalised changes nothing, so [load_rule_book] can
    be applied twice without effect and [process_user_access], which
    normalises the header itself, gives the same result on a frame and on
    the frame with normalised header. *)
Theorem header_normalisation_idempotent (file : DataFrame) :
  load_rule_book (load_rule_book file) = load_rule_book file /\
  process_user_access (load_rule_book file) = process_user_access file.
Proof.
  unfold load_rule_book, process_user_access. simpl.
  now rewrite normalize_columns_idem.
Qed.

(** X14: what is stored is canonical.  The codes and labels in the keys
    and values of a conflict map, and the users, roles and codes of an
    access graph, are fixed points of the canonicalisation that produced
    them (trimmed; codes also uppercase), and users and roles are not
    empty. *)
Theorem stored_values_canonical :
  (forall rule_df m a b risk,
      process_rule_book rule_df = Ok m -> In ((a, b), risk) m ->
      canon_code (Text a) = a /\ canon_code (Text b) = b /\
      canon_risk (Text risk) = risk) /\
  (forall user_df urt rtt u r t,
      process_user_access user_df = Ok (urt, rtt) ->
      In t (grants urt u r) ->
      canon_name (Text u) = u /\ canon_name (Text r) = r /\
      canon_code (Text t) = t /\ u <> "" /\ r <> "").
Proof.
  split.
  - intros rule_df m a b risk Hm Hin.
    destruct (rule_entries_members _ _ _ _ Hm Hin)
      as (row & _ & c1 & c2 & c3 & _ & _ & _ & _ & _ & _ & Hp & ->).
    split; [|split].
    + destruct (sorted_pair_cases (canon_code c1) (canon_code c2)) as [E|E];
        rewrite E in Hp; injection Hp as -> ->; apply canon_code_idem.
    + destruct (sorted_pair_cases (canon_code c1) (canon_code c2)) as [E|E];
        rewrite E in Hp; injection Hp as -> ->; apply canon_code_idem.
    + unfold canon_risk. simpl. apply strip_idem.
  - intros user_df urt rtt u r t Hg Hin.
    apply (grants_members _ _ _ _ _ _ Hg) in Hin.
    destruct Hin as (row & _ & c1 & c2 & c3 & _ & _ & _ & <- & <- & <- & Hu & Hr & _).
    repeat split; auto using canon_name_idem, canon_code_idem.
Qed.

Lemma stored_values_canonical_witness :
  canon_code (Text "FB01") = "FB01" /\ canon_code (Text "FB02") = "FB02" /\
  canon_risk (Text "High") = "High".
Proof.
  apply (proj1 stored_values_canonical
           (rule_table [(Text " fb02", Text "fb01 ", Text " High ")])
           [(("FB01", "FB02"), "High")] "FB01" "FB02" "High" eq_refl).
  now left.
Defined.

Lemma run_completes_iff_witness :
  exists s,
    main insertion_order
      {| columns := [" tcode1"; "Tcode2 "; "ask_risk"; "note"];
         rows := [[Text "a"; Text "b"; Text "High"; NaN]] |}
      {| columns := ["user name"]; rows := [] |}
    = Analyzed s.
Proof.
  assert (H1 : ascii_header [" tcode1"; "Tcode2 "; "ask_risk"; "note"])
    by (split; [discriminate|repeat constructor]).
  assert (H2 : ascii_header ["user name"])
    by (split; [discriminate|repeat constructor]).
  apply (proj2 (run_completes_iff insertion_order
           {| columns := [" tcode1"; "Tcode2 "; "ask_risk"; "note"];
              rows := [[Text "a"; Text "b"; Text "High"; NaN]] |}
           {| columns := ["user name"]; rows := [] |} H1 H2)).
  split.
  - right. intros c [<-|[<-|[<-|[]]]]; simpl; auto.
  - now left.
Defined.

(* ================================================================== *)
(** ** The results page: formatted counts *)

Example format_thousands_ex :
  map format_thousands [0; 7; 999; 1000; 4321]
  = ["0"; "7"; "999"; "1,000"; "4,321"].
Proof. reflexivity. Qed.

Lemma group3_filter (n : nat) (l : list ascii) :
  List.length l <= n ->
  Forall (fun c => Ascii.eqb c ","%char = false) l ->
  filter (fun c => negb (Ascii.eqb c ","%char)) (group3 l) = l.
Proof.
  revert l. induction n as [|n IH]; intros l Hlen Hall.
  - destruct l; [reflexivity|simpl in Hlen; lia].
  - destruct l as [|a [|b [|c [|d l]]]];
      repeat match goal with
      | H : Forall _ (_ :: _) |- _ =>
          let E := fresh "E" in
          let H' := fresh "H" in
          inversion H as [|? ? E H']; subst; clear H
      end; simpl; rewrite ?E, ?E0, ?E1; simpl; try reflexivity.
    f_equal. f_equal. f_equal.
    assert (Hd : Forall (fun c => Ascii.eqb c ","%char = false) (d :: l))
      by (constructor; assumption).
    specialize (IH (d :: l)). simpl in IH, Hlen.
    apply IH; [lia|exact Hd].
Qed.

Lemma string_of_uint_no_comma (d : Decimal.uint) :
  Forall (fun c => Ascii.eqb c ","%char = false)
         (list_ascii_of_string (NilEmpty.string_of_uint d)).
Proof. induction d; simpl; constructor; auto. Qed.

Lemma remove_commas_format (n : nat) :
  remove_commas (format_thousands n) = NilEmpty.string_of_uint (Nat.to_uint n).
Proof.
  unfold remove_commas, format_thousands.
  rewrite list_ascii_of_string_of_list_ascii, filter_rev.
  rewrite (group3_filter _ _ (le_n _)).
  - now rewrite rev_involutive, string_of_list_ascii_of_string.
  - apply Forall_rev, string_of_uint_no_comma.
Qed.

(** X15: a formatted count can be read back.  Dropping the commas from
    [f"{n:,}"] and reading the digits gives [n] again, so two counts that
    are displayed alike are equal. *)
Theorem format_thousands_round_trip (n : nat) :
  option_map Nat.of_uint
    (NilEmpty.uint_of_string (remove_commas (format_thousands n))) = Some n /\
  (forall n', format_thousands n = format_thousands n' -> n = n').
Proof.
  assert (H : forall k, option_map Nat.of_uint
                (NilEmpty.uint_of_string (remove_commas (format_thousands k)))
              = Some k).
  { intros k. rewrite remove_commas_format, NilEmpty.usu. simpl.
    now rewrite Unsigned.of_to. }
  split; [apply H|].
  intros n' E. pose proof (H n) as Hn. rewrite E, H in Hn. congruence.
Qed.

(* ================================================================== *)
(** ** The results page: risk summary and session state *)



(** X17: results on the page are those of the session state.  Whatever a
    run of the script shows as results is the rendering of the analysis
    held in the session state after the run; the state changes only when
    the button was pressed and the analysis completed; an error is never
    shown together with results. *)
Theorem page_shows_session_state (o : set_order) (w : widgets)
    (state state' : option session) (p : page) :
  main_script o w state = (state', p) ->
  (forall e r, p = Analysis e (Some r) ->
               e = None /\ exists s, state' = Some s /\ r = show_results s) /\
  (state' = state \/
   exists rule_file user_file s,
     rule_book_file w = Some rule_file /\
     user_access_file w = Some user_file /\
     analyze_button w = true /\
     run_analysis o rule_file user_file = Ok s /\ state' = Some s).
Proof.
  unfold main_script.
  destruct (rule_book_file w) as [rf|]; [|intros [= <- <-]; split; [discriminate|auto]].
  destruct (user_access_file w) as [uf|]; [|intros [= <- <-]; split; [discriminate|auto]].
  destruct (analyze_button w).
  - destruct (run_analysis o rf uf) as [s|k] eqn:E; intros [= <- <-].
    + split; [|right; exists rf, uf, s; auto].
      intros e r [= <- <-]. split; [reflexivity|eauto].
    + split; [discriminate|auto].
  - intros [= <- <-]. split; [|auto].
    intros e r [= <- Hr]. split; [reflexivity|].
    destruct state as [s|]; [|discriminate].
    injection Hr as <-. eauto.
Qed.

Lemma page_shows_session_state_witness :
  @None string = None /\
  exists s,
    Some {| conflict_pairs := 0; total_users := 0; total_roles := 0;
            user_violations := []; role_violations := [] |} = Some s /\
    show_results {| conflict_pairs := 0; total_users := 0; total_roles := 0;
                    user_violations := []; role_violations := [] |}
    = show_results s.
Proof.
  exact (proj1 (page_shows_session_state insertion_order
                  {| rule_book_file := Some (rule_table []);
                     user_access_file := Some (access_table []);
                     analyze_button := true |}
                  None _ _ eq_refl) None _ eq_refl).
Defined.

(** X18: a failed analysis leaves the earlier results in place.  After an
    analysis that completed, a run in which the button is pressed and the
    analysis raises shows the error and no results, and the next run
    without the button shows the results of the earlier analysis again,
    although the uploads are no longer the ones they were computed from. *)
Theorem failed_run_keeps_results (o : set_order)
    (rule_file user_file rule_file' user_file' : DataFrame)
    (s : session) (key : string) (state0 : option session) :
  run_analysis o rule_file user_file = Ok s ->
  run_analysis o rule_file' user_file' = KeyError key ->
  let run1 := main_script o {| rule_book_file := Some rule_file;
                               user_access_file := Some user_file;
                               analyze_button := true |} state0 in
  let run2 := main_script o {| rule_book_file := Some rule_file';
                               user_access_file := Some user_file';
                               analyze_button := true |} (fst run1) in
  let run3 := main_script o {| rule_book_file := Some rule_file';
                               user_access_file := Some user_file';
                               analyze_button := false |} (fst run2) in
  snd run2 = Analysis (Some (error_message key)) None /\
  snd run3 = Analysis None (Some (show_results s)).
Proof.
  intros H1 H2. unfold main_script. simpl. rewrite H1, H2. simpl. auto.
Qed.

Lemma failed_run_keeps_results_witness :
  snd (main_script insertion_order
         {| rule_book_file := Some {| columns := ["TCODE1"]; rows := [[NaN]] |};
            user_access_file := Some (access_table []);
            analyze_button := false |}
         (fst (main_script insertion_order
                 {| rule_book_file := Some {| columns := ["TCODE1"]; rows := [[NaN]] |};
                    user_access_file := Some (access_table []);
                    analyze_button := true |}
                 (fst (main_script insertion_order
                         {| rule_book_file := Some (rule_table []);
                            user_access_file := Some (access_table []);
                            analyze_button := true |} None)))))
  = Analysis None
      (Some (show_results
               {| conflict_pairs := 0; total_users := 0; total_roles := 0;
                  user_violations := []; role_violations := [] |})).
Proof.
  exact (proj2 (failed_run_keeps_results insertion_order
                  (rule_table []) (access_table [])
                  {| columns := ["TCODE1"]; rows := [[NaN]] |} (access_table [])
                  _ "TCODE2" None eq_refl eq_refl)).
Defined.

(* ================================================================== *)
(** ** More access rows, more violations *)



Lemma blank_fields_skipped_witness :
  process_user_access
    (access_table [(Text "U", Text "R", Text "A"); (Text "  ", Text "R", Text "B")])
  = process_user_access (access_table [(Text "U", Text "R", Text "A")]).
Proof.
  exact (blank_fields_skipped access_columns
           [Text "  "; Text "R"; Text "B"] (Text "  ") (Text "R") (Text "B")
           [[Text "U"; Text "R"; Text "A"]] []
           access_columns_ascii access_columns_NoDup eq_refl eq_refl eq_refl
           eq_refl eq_refl eq_refl (or_introl eq_refl)).
Defined.
